(** * stakefish: fetching, reconciling and aggregating Bitcoin block times

    A shallow embedding of the notebook [stakefish.ipynb].  The notebook has
    three stages that communicate through one pickle file,
    [./data/blocks.pkl]:

    - the bulk fetcher (first code cell) walks the days since genesis and
      dumps one page of blocks per successful request;
    - the gap reconciler (second code cell) reads every page, computes the
      block indexes that are absent, asks the block-height endpoint for each
      of them and writes the whole list back;
    - the aggregator (remaining cells) sorts the blocks by index, computes
      the minutes between consecutive blocks and summarises them.

    Python integers are [Z].  Python dictionaries are [gmap string _], sets
    of integers are [gset Z], lists are [list].  Exceptions are values of
    [exn]; a cell is a function of the world (the file, the number of HTTP
    requests made so far, the time slept and the console) that returns the
    new world together with a value or the exception that stopped it.

    Numbers that Python keeps as floats are kept here as exact rationals
    ([Q]).  Only divisions of integers, sums, differences, products and
    comparisons are modelled that way; [math.erf] and [math.sqrt] are not
    represented as numbers. *)

From Stdlib Require Import QArith Lqa.
From stdpp Require Import gmap strings list fin_maps sorting.

(** ** Exceptions and results *)

Inductive exn : Type :=
  | KeyError (key : string)
  | TypeError
  | ValueError
  | IndexError
  | ZeroDivisionError
  | StatisticsError
  | FileNotFoundError
  | JSONDecodeError.

Inductive result (A : Type) : Type :=
  | Ok (a : A)
  | Raise (e : exn).
Arguments Ok {A} a.
Arguments Raise {A} e.

Definition rbind {A B : Type} (m : result A) (k : A → result B) : result B :=
  match m with
  | Ok a => k a
  | Raise e => Raise e
  end.

Notation "'try' x := m 'in' k" := (rbind m (fun x => k))
  (at level 10, x name, m at level 100, k at level 200,
   format "'[v' 'try'  x  :=  m  'in' '/' k ']'").

(** [[f(x) for x in l]] when [f] may raise: the first exception stops the
    comprehension. *)
Fixpoint rmap {A B : Type} (f : A → result B) (l : list A) : result (list B) :=
  match l with
  | [] => Ok []
  | x :: l' =>
      try y := f x in
      try ys := rmap f l' in
      Ok (y :: ys)
  end.

(** ** Python values held in a block record *)

Inductive pyval : Type :=
  | PInt (z : Z)
  | PStr (s : string).

#[global] Instance pyval_eq_dec : EqDecision pyval.
Proof. solve_decision. Defined.

(** A block as decoded from JSON: a dictionary from field names to
    values. *)
Abbreviation Block := (gmap string pyval).

(** [d[key]] *)
Definition getitem {V : Type} (d : gmap string V) (key : string) : result V :=
  match d !! key with
  | Some v => Ok v
  | None => Raise (KeyError key)
  end.

(** Block indexes are JSON integers; any other value is reported as
    [TypeError], which Python raises as soon as the value meets an integer
    in a comparison or in [max_index+1]. *)
Definition as_int (v : pyval) : result Z :=
  match v with
  | PInt z => Ok z
  | PStr _ => Raise TypeError
  end.

(** [a - b]: defined on integers only. *)
Definition py_sub (a b : pyval) : result Z :=
  match a, b with
  | PInt x, PInt y => Ok (x - y)%Z
  | _, _ => Raise TypeError
  end.

(** [range(start, stop)] *)
Definition py_range (start stop : Z) : list Z := seqZ start (stop - start).

(** [range(start, stop, step)] for a positive [step] *)
Definition py_range_step (start stop step : Z) : list Z :=
  (λ i, start + i * step)%Z <$> seqZ 0 ((stop - start + step - 1) `div` step).

(** [l[i]], with Python's negative indexes counted from the end. *)
Definition py_index {A : Type} (l : list A) (i : Z) : result A :=
  let n := Z.of_nat (length l) in
  let j := if decide (i < 0)%Z then (i + n)%Z else i in
  if decide (0 ≤ j)%Z then
    match l !! Z.to_nat j with
    | Some x => Ok x
    | None => Raise IndexError
    end
  else Raise IndexError.

(** ** The world of a cell *)

(** What a cell prints. *)
Inductive message : Type :=
  | PrintInt (z : Z)
  | PrintSet (s : gset Z)
  | PrintFailed (code : Z).

(** The pickle file is a sequence of pages, one per [pickle.dump]; a page is
    a list of blocks.  [None] is a file that does not exist. *)
Record world : Type := World {
  file : option (list (list Block));
  requests : nat;
  slept : nat;
  stdout : list message
}.

Definition stage (A : Type) : Type := world → world * result A.

Definition ret {A : Type} (a : A) : stage A := λ w, (w, Ok a).

Definition raise {A : Type} (e : exn) : stage A := λ w, (w, Raise e).

Definition bind {A B : Type} (m : stage A) (k : A → stage B) : stage B :=
  λ w, match m w with
       | (w', Ok a) => k a w'
       | (w', Raise e) => (w', Raise e)
       end.

Definition lift {A : Type} (r : result A) : stage A := λ w, (w, r).

Notation "'do' x <- m ; k" := (bind m (fun x => k))
  (at level 10, x name, m at level 100, k at level 200,
   format "'[v' 'do'  x  <-  m ; '/' k ']'").
Notation "m ;; k" := (bind m (fun _ => k))
  (at level 100, k at level 200, right associativity).

(** [for x in l: body(x)] *)
Fixpoint for_each {A : Type} (l : list A) (body : A → stage unit) : stage unit :=
  match l with
  | [] => ret tt
  | x :: l' => body x ;; for_each l' body
  end.

(** [for x in l: acc = body(x, acc)] *)
Fixpoint for_acc {A B : Type} (l : list A) (body : A → B → stage B) (acc : B) : stage B :=
  match l with
  | [] => ret acc
  | x :: l' => do acc' <- body x acc; for_acc l' body acc'
  end.

Definition print (m : message) : stage unit :=
  λ w, (World (file w) (requests w) (slept w) (stdout w ++ [m]), Ok tt).

(** [time.sleep(0.1)]: counted in units of 100ms. *)
Definition time_sleep : stage unit :=
  λ w, (World (file w) (requests w) (S (slept w)) (stdout w), Ok tt).

(** [open('./data/blocks.pkl', 'wb')]: creates the file or truncates it. *)
Definition open_wb : stage unit :=
  λ w, (World (Some []) (requests w) (slept w) (stdout w), Ok tt).

(** [pickle.dump(page, output, ...)]: one more page at the end of the file
    opened for writing. *)
Definition pickle_dump (page : list Block) : stage unit :=
  λ w, (World (Some (default [] (file w) ++ [page])) (requests w) (slept w) (stdout w), Ok tt).

(** Reading cell prologue:
<<
    blocks = []
    with open('./data/blocks.pkl', 'rb') as input:
        try:
            while True:
                blocks += pickle.load(input)
        except EOFError:
            pass
>> *)
Definition load_blocks : stage (list Block) :=
  λ w, match file w with
       | None => (w, Raise FileNotFoundError)
       | Some pages => (w, Ok (foldl (λ blocks page, blocks ++ page) [] pages))
       end.

(** ** The upstream API *)

Record Response (A : Type) : Type := mkResponse {
  status_code : Z;
  json : option A
}.
Arguments mkResponse {A} _ _.
Arguments status_code {A} _.
Arguments json {A} _.

(** The two endpoints.  What the server answers may depend on how many
    requests were made before ([nat]) and on the path argument. *)
Record Network : Type := mkNetwork {
  get_blocks : nat → Z → Response (list Block);
  get_block_height : nat → Z → Response (gmap string (list Block))
}.

(** [request.json()] *)
Definition response_json {A : Type} (request : Response A) : result A :=
  match json request with
  | Some v => Ok v
  | None => Raise JSONDecodeError
  end.

(** ** Stage 1: the bulk fetcher *)

(** Jan 8, 2009 in milliseconds *)
Definition start_time : Z := 1231300800 * 1000.

Definition one_day : Z := 24 * 60 * 60 * 1000.

Section Stages.

Variable net : Network.

(** [for block in missing_blocks] visits the set in an order that Python
    does not fix: the order is a parameter of the reconciler. *)
Variable set_iter : gset Z → list Z.

(** [requests.get(f"https://blockchain.info/blocks/{timestamp}?format=json")] *)
Definition requests_get_blocks (timestamp : Z) : stage (Response (list Block)) :=
  λ w, (World (file w) (S (requests w)) (slept w) (stdout w),
        Ok (get_blocks net (requests w) timestamp)).

(** [requests.get(f"https://blockchain.info/block-height/{block}?format=json")] *)
Definition requests_get_block_height (block : Z)
  : stage (Response (gmap string (list Block))) :=
  λ w, (World (file w) (S (requests w)) (slept w) (stdout w),
        Ok (get_block_height net (requests w) block)).

(** The fetcher's [for tries in range(5)] loop for one day; [tries] is the
    number of attempts left.
<<
    request = requests.get(...)
    if request.status_code == 200:
        pickle.dump(request.json(), output, pickle.HIGHEST_PROTOCOL)
        break
    else:
        time.sleep(0.1)
        print(f"Failed the request with code: {request.status_code}")
>> *)
Fixpoint fetch_day (tries : nat) (timestamp : Z) : stage unit :=
  match tries with
  | O => ret tt
  | S tries' =>
      do request <- requests_get_blocks timestamp;
      if decide (status_code request = 200%Z) then
        do page <- lift (response_json request);
        pickle_dump page
      else
        time_sleep ;;
        print (PrintFailed (status_code request)) ;;
        fetch_day tries' timestamp
  end.

(** The first code cell; [end_time] is [int(time.time() * 1000)]. *)
Definition fetcher (end_time : Z) : stage unit :=
  open_wb ;;
  for_each (py_range_step start_time end_time one_day)
    (λ timestamp, print (PrintInt timestamp) ;; fetch_day 5 timestamp).

(** ** Stage 2: the gap reconciler *)

(** [set(map(lambda block: block['block_index'], blocks))] *)
Definition block_indexes (blocks : list Block) : result (gset Z) :=
  try indexes := rmap (λ b, try v := getitem b "block_index" in as_int v) blocks in
  Ok (list_to_set indexes).

(** [max(s)] of a set of integers; the empty set raises [ValueError]. *)
Definition py_max (s : gset Z) : result Z :=
  match elements s with
  | [] => Raise ValueError
  | x :: l => Ok (foldl Z.max x l)
  end.

(** Lines [block_indexes = ...] to [missing_blocks = block_list - block_indexes]. *)
Definition missing_blocks (blocks : list Block) : result (gset Z) :=
  try block_indexes := block_indexes blocks in
  try max_index := py_max block_indexes in
  let block_list : gset Z := list_to_set (py_range 0 (max_index + 1)) in
  Ok (block_list ∖ block_indexes).

(** The reconciler's [for tries in range(5)] loop for one missing index.
<<
    request = requests.get(...)
    if request.status_code == 200:
        result = request.json()
        blocks_to_add += result['blocks']
        break
    else:
        time.sleep(0.1)
        print(f"Failed the request with code: {request.status_code}")
>> *)
Fixpoint fetch_block (tries : nat) (block : Z) (blocks_to_add : list Block)
  : stage (list Block) :=
  match tries with
  | O => ret blocks_to_add
  | S tries' =>
      do request <- requests_get_block_height block;
      if decide (status_code request = 200%Z) then
        do result <- lift (response_json request);
        do found <- lift (getitem result "blocks");
        ret (blocks_to_add ++ found)
      else
        time_sleep ;;
        print (PrintFailed (status_code request)) ;;
        fetch_block tries' block blocks_to_add
  end.

(** [{'hash': record['hash'], 'height': record['height'],
      'time': record['time'], 'block_index': record['block_index']}] *)
Definition project (record : Block) : result Block :=
  try hash := getitem record "hash" in
  try height := getitem record "height" in
  try time := getitem record "time" in
  try block_index := getitem record "block_index" in
  Ok (<["hash" := hash]> (<["height" := height]> (<["time" := time]>
       (<["block_index" := block_index]> ∅)))).

(** [open('./data/blocks.pkl', 'wb')] followed by one [pickle.dump(blocks)]. *)
Definition save_blocks (blocks : list Block) : stage unit :=
  open_wb ;; pickle_dump blocks.

(** The second code cell.  It calls [requests] and [time], which the first
    cell imports: the cells are taken to run in one kernel. *)
Definition reconciler : stage unit :=
  do blocks <- load_blocks;
  do missing <- lift (missing_blocks blocks);
  print (PrintInt (Z.of_nat (length blocks))) ;;
  print (PrintInt (Z.of_nat (size missing))) ;;
  print (PrintSet missing) ;;
  do blocks_to_add <- for_acc (set_iter missing) (fetch_block 5) [];
  do projected <- lift (rmap project blocks_to_add);
  save_blocks (blocks ++ projected).

End Stages.

(** ** Stage 3: the aggregator *)

(** [sorted] is stable.  A stable sort has one possible result, which is the
    one of this insertion sort on the list decorated with its keys. *)
Fixpoint insert_by_key (x : Z * Block) (l : list (Z * Block)) : list (Z * Block) :=
  match l with
  | [] => [x]
  | y :: l' =>
      if decide (x.1 ≤ y.1)%Z then x :: y :: l' else y :: insert_by_key x l'
  end.

Definition sort_by_key (l : list (Z * Block)) : list (Z * Block) :=
  foldr insert_by_key [] l.

(** The key function [lambda block: block['block_index']], kept with the
    block it was computed from. *)
Definition keyed (blk : Block) : result (Z * Block) :=
  try v := getitem blk "block_index" in
  try k := as_int v in
  Ok (k, blk).

(** [sorted(blocks, key=lambda block: block['block_index'])] *)
Definition sorted_blocks (blocks : list Block) : result (list Block) :=
  try decorated := rmap keyed blocks in
  Ok ((sort_by_key decorated).*2).

(** [list(map(lambda block: block['time'], sorted_blocks))] *)
Definition block_times (sorted_blocks : list Block) : result (list pyval) :=
  rmap (λ blk, getitem blk "time") sorted_blocks.

(** [(block_times[i] - block_times[i-1])/60]: the quotient of two integers,
    kept exact. *)
Definition minutes_between (block_times : list pyval) (i : Z) : result Q :=
  try later := py_index block_times i in
  try earlier := py_index block_times (i - 1) in
  try seconds := py_sub later earlier in
  Ok (inject_Z seconds / 60)%Q.

(** [[... for i in range(1,len(block_times))]] *)
Definition time_diff_of (block_times : list pyval) : result (list Q) :=
  rmap (minutes_between block_times) (py_range 1 (Z.of_nat (length block_times))).

(** The third code cell, after the blocks were read. *)
Definition time_diff (blocks : list Block) : result (list Q) :=
  try sorted_blocks := sorted_blocks blocks in
  try block_times := block_times sorted_blocks in
  time_diff_of block_times.

(** *** Statistics *)

Definition Qsum (l : list Q) : Q := foldr Qplus 0%Q l.

Definition Qlen {A : Type} (l : list A) : Q := inject_Z (Z.of_nat (length l)).

(** [a / b] on numbers *)
Definition py_truediv (a b : Q) : result Q :=
  if Qeq_bool b 0 then Raise ZeroDivisionError else Ok (a / b)%Q.

(** [statistics.mean]: needs at least one data point. *)
Definition mean (data : list Q) : result Q :=
  if decide (length data < 1) then Raise StatisticsError
  else Ok (Qsum data / Qlen data)%Q.

(** [statistics.variance], the sample variance: needs at least two data
    points; the sum of squared deviations from the mean is corrected by the
    squared sum of the deviations, as the library does. *)
Definition variance (data : list Q) : result Q :=
  if decide (length data < 2) then Raise StatisticsError
  else
    try c := mean data in
    let total := Qsum ((λ x, (x - c) * (x - c))%Q <$> data) in
    let total2 := Qsum ((λ x, x - c)%Q <$> data) in
    Ok ((total - total2 * total2 / Qlen data) / (Qlen data - 1))%Q.

(** [x / stdev(data)]: [statistics.stdev] is the square root of
    [variance], so the division raises exactly when the variance is zero.
    The quotient is not represented. *)
Definition divide_by_stdev (data : list Q) : result unit :=
  try var := variance data in
  if Qeq_bool var 0 then Raise ZeroDivisionError else Ok tt.

(** [filter(lambda time: time >= 120, time_diff)] *)
Definition long_blocks (time_diff : list Q) : list Q :=
  List.filter (λ time, Qle_bool 120 time) time_diff.

(** [actual = len(list(filter(...))) / len(time_diff)] *)
Definition actual (time_diff : list Q) : result Q :=
  py_truediv (Qlen (long_blocks time_diff)) (Qlen time_diff).

(** What the fourth cell has computed when it reaches its [print] lines,
    as far as it is a quotient of integers. *)
Record summary : Type := Summary {
  summary_avg : Q;
  summary_actual : Q
}.

(** The fourth code cell up to [days_between_long_blocks]:
<<
    avg = mean(time_diff)
    cdf = (1+math.erf((120-avg)/stdev(time_diff)/math.sqrt(2)))/2
    prob = 1 - cdf
    actual = len(list(filter(lambda time: time >= 120, time_diff))) / len(time_diff)
    days_between_long_blocks = round(avg / actual / 60)
>>
    Of the second line only the division by [stdev(time_diff)] is kept, and
    of the last line only the division by [actual]: the integer that [round]
    returns depends on the rounding of the floats it is given and is not
    represented. *)
Definition statistics (time_diff : list Q) : result summary :=
  try avg := mean time_diff in
  try _cdf := divide_by_stdev time_diff in
  try actual := actual time_diff in
  try _blocks_between := py_truediv avg actual in
  Ok (Summary avg actual).

(** The fifth code cell: [long_block_deltas]. *)
Definition long_block_deltas (time_diff : list Q) : nat :=
  length (long_blocks time_diff).

(** The third and fourth cells run one after the other on the file. *)
Definition aggregator : stage summary :=
  do blocks <- load_blocks;
  do time_diff <- lift (time_diff blocks);
  lift (statistics time_diff).

(** * Vocabulary of the properties *)

(** The record [blk] carries the integer index [i]. *)
Definition has_index (blk : Block) (i : Z) : Prop :=
  blk !! "block_index" = Some (PInt i).

(** The record [blk] carries the integer timestamp [t]. *)
Definition has_time (blk : Block) (t : Z) : Prop :=
  blk !! "time" = Some (PInt t).

#[global] Instance has_index_dec (blk : Block) (i : Z) : Decision (has_index blk i).
Proof. unfold has_index. apply _. Defined.

(** The blocks held by the file, page after page. *)
Definition stored (w : world) : list Block := concat (default [] (file w)).

Definition core_fields : gset string :=
  {["hash"; "height"; "time"; "block_index"]}.

(** [projected] has the four core fields and nothing else, each with the
    value it has in [record]. *)
Definition projection_of (record projected : Block) : Prop :=
  dom projected = core_fields
  ∧ ∀ k, k ∈ core_fields → projected !! k = record !! k.

(** The world after [codes] were answered one after the other, each a
    failure: as many requests and naps as codes, one console line each, and
    the file as it was. *)
Definition after_failures (codes : list Z) (w : world) : world :=
  World (file w) (requests w + length codes) (slept w + length codes)
        (stdout w ++ (PrintFailed <$> codes)).


Definition height_codes (net : Network) (block : Z) (first n : nat) : list Z :=
  (λ k, status_code (get_block_height net (first + k) block)) <$> seq 0 n.

(** The world when the reconciler starts to fetch: three lines printed. *)
Definition announced (blocks : list Block) (missing : gset Z) (w : world) : world :=
  World (file w) (requests w) (slept w)
        (((stdout w ++ [PrintInt (Z.of_nat (length blocks))])
            ++ [PrintInt (Z.of_nat (size missing))]) ++ [PrintSet missing]).

(** Keys never decrease along the list. *)
Definition ascending (l : list (Z * Block)) : Prop :=
  StronglySorted (λ x y, (x.1 ≤ y.1)%Z) l.

(** Indexes never decrease along a list of blocks. *)
Definition index_sorted (l : list Block) : Prop :=
  ∀ i j bi bj ki kj,
    i < j → l !! i = Some bi → l !! j = Some bj →
    has_index bi ki → has_index bj kj → (ki ≤ kj)%Z.

#[global] Instance Qle_decision (x y : Q) : Decision (x <= y)%Q :=
  match Qlt_le_dec y x with
  | left Hlt => right (Qlt_not_le _ _ Hlt)
  | right Hle => left Hle
  end.

(** The integer index of a block that has one. *)
Definition key_of (blk : Block) : Z :=
  match blk !! "block_index" with
  | Some (PInt i) => i
  | _ => 0%Z
  end.

(** The minutes between consecutive timestamps, the first one counted
    from [previous]. *)
Fixpoint deltas (previous : Z) (times : list Z) : list Q :=
  match times with
  | [] => []
  | t :: times' => (inject_Z (t - previous) / 60)%Q :: deltas t times'
  end.

(** The pages held by the file. *)
Definition pages_of (w : world) : list (list Block) := default [] (file w).

(** Every request is accounted for by a nap (it failed) or by a page (it
    succeeded), up to [pending] requests that did neither. *)
Definition accounted (pending : nat) (w w' : world) : Prop :=
  requests w' + slept w + length (pages_of w)
  = requests w + slept w' + length (pages_of w') + pending.

Section Upstream.

Variable net : Network.


(** The blocks endpoint always succeeds with a page. *)
Definition blocks_reliable : Prop :=
  ∀ n timestamp,
    status_code (get_blocks net n timestamp) = 200%Z
    ∧ is_Some (json (get_blocks net n timestamp)).

(** [page] is the body of a successful answer of the blocks endpoint for
    the day [timestamp]. *)
Definition served (timestamp : Z) (page : list Block) : Prop :=
  ∃ n, status_code (get_blocks net n timestamp) = 200%Z
       ∧ json (get_blocks net n timestamp) = Some page.

(** The list [found] is the whole ['blocks'] entry of a successful answer
    of the block-height endpoint for index [i]. *)
Definition recovered_from (i : Z) (found : list Block) : Prop :=
  ∃ n body,
    status_code (get_block_height net n i) = 200%Z
    ∧ json (get_block_height net n i) = Some body
    ∧ body !! "blocks" = Some found.

(** What a completed run of the reconciler did to the file, in terms of the
    answers of the block-height endpoint that it kept. *)
Definition reconciled (w w' : world) : Prop :=
  ∃ pages missing founds projected,
    file w = Some pages
    ∧ missing_blocks (concat pages) = Ok missing
    ∧ Forall (λ found, ∃ i, i ∈ missing ∧ recovered_from i found) founds
    ∧ Forall2 projection_of (concat founds) projected
    ∧ file w' = Some [concat pages ++ projected].

(** Every successful answer of the block-height endpoint is an object
    whose ['blocks'] entry lists records with the four core fields. *)
Definition well_formed_upstream : Prop :=
  ∀ n i, status_code (get_block_height net n i) = 200%Z →
    ∃ body found,
      json (get_block_height net n i) = Some body
      ∧ body !! "blocks" = Some found
      ∧ Forall (λ record, ∀ k, k ∈ core_fields → is_Some (record !! k)) found.

(** The block-height endpoint has nothing to give: every answer is a failure. *)
Definition upstream_silent : Prop :=
  ∀ n i, status_code (get_block_height net n i) ≠ 200%Z.

(** [kept_blocks indexes n blocks n'] describes, from the answers alone, what
    is to be kept when the indexes are asked for in turn, the first request
    being number [n]: an index whose five answers are failures contributes
    nothing; an index whose answer number [k] (below five) is the first
    success contributes the whole ['blocks'] list of that answer, and the
    next index is asked for right after it.  [n'] is the number of the
    request that would come next. *)
Inductive kept_blocks : list Z → nat → list Block → nat → Prop :=
  | kept_done (n : nat) : kept_blocks [] n [] n
  | kept_exhausted (i : Z) (l : list Z) (n : nat) (rest : list Block) (n' : nat) :
      Forall (λ c, c ≠ 200%Z) (height_codes net i n 5) →
      kept_blocks l (n + 5) rest n' →
      kept_blocks (i :: l) n rest n'
  | kept_answer (i : Z) (l : list Z) (n k : nat) (body : gmap string (list Block))
      (found rest : list Block) (n' : nat) :
      k < 5 →
      Forall (λ c, c ≠ 200%Z) (height_codes net i n k) →
      status_code (get_block_height net (n + k) i) = 200%Z →
      json (get_block_height net (n + k) i) = Some body →
      body !! "blocks" = Some found →
      kept_blocks l (n + S k) rest n' →
      kept_blocks (i :: l) n (found ++ rest) n'.

End Upstream.

(** * Sample data *)

(** A record as the reconciler stores it. *)
Definition sample_block (index time : Z) : Block :=
  <["hash" := PStr "00"]> (<["height" := PInt index]> (<["time" := PInt time]>
    (<["block_index" := PInt index]> ∅))).

(** A record as upstream sends it, with a field that is not a core one. *)
Definition raw_block (index time : Z) : Block :=
  <["nonce" := PInt 7]> (sample_block index time).

(** Two pages; the indexes 2 and 4 are absent. *)
Definition sample_pages : list (list Block) :=
  [[sample_block 0 0; sample_block 1 600]; [sample_block 3 1800; sample_block 5 3000]].


(** One page without gaps. *)
Definition complete_pages : list (list Block) :=
  [[sample_block 1 600; sample_block 0 0; sample_block 2 1200]].

(** Two records share the index 1. *)
Definition duplicate_blocks : list Block :=
  [sample_block 2 1200; sample_block 1 700; sample_block 0 0; sample_block 1 600].

(** Three records mined at the same second. *)
Definition simultaneous_pages : list (list Block) :=
  [[sample_block 0 50; sample_block 1 50; sample_block 2 50]].

Definition fresh (pages : option (list (list Block))) : world := World pages 0 0 [].

(** Upstream that answers 503 to the first four requests and then
    succeeds; the block-height endpoint returns two records per index. *)
Definition flaky_net : Network :=
  mkNetwork
    (λ n timestamp,
       if decide (n < 4) then mkResponse 503 None
       else mkResponse 200 (Some [raw_block 0 0]))
    (λ n index,
       if decide (n < 4) then mkResponse 503 None
       else mkResponse 200
              (Some {["blocks" := [raw_block index (600 * index);
                                   raw_block index (600 * index + 1)]]})).

(** Upstream that always succeeds: one block per day, one record per
    index. *)
Definition steady_net : Network :=
  mkNetwork
    (λ n timestamp, mkResponse 200 (Some [raw_block (Z.of_nat n) (timestamp `div` 1000)]))
    (λ n index, mkResponse 200 (Some {["blocks" := [raw_block index (600 * index)]]})).

(** A record without an index, and one without a timestamp. *)
Definition unindexed_block : Block := <["time" := PInt 5]> ∅.

Definition untimed_block : Block := <["block_index" := PInt 1]> ∅.

(** Upstream that answers 500 to everything. *)
Definition down_net : Network :=
  mkNetwork (λ _ _, mkResponse 500 None) (λ _ _, mkResponse 500 None).

(** * Properties *)

(** Closes the case of an outcome lemma in which the loop stopped with an
    exception. *)
Ltac raised :=
  do 2 eexists; split; [reflexivity|]; split; [done|]; intros ? ?; discriminate.

(** ** Results and comprehensions *)

Lemma rbind_Ok {A B : Type} (m : result A) (k : A → result B) (y : B) :
  rbind m k = Ok y ↔ ∃ a, m = Ok a ∧ k a = Ok y.
Proof.
  destruct m as [a|e]; simpl; split.
  - eauto.
  - intros (a' & [= <-] & ?). done.
  - done.
  - intros (a' & [=] & _).
Qed.

Lemma rmap_Ok {A B : Type} (f : A → result B) (l : list A) (ys : list B) :
  rmap f l = Ok ys ↔ Forall2 (λ x y, f x = Ok y) l ys.
Proof.
  revert ys. induction l as [|x l IH]; intros ys; simpl.
  - split.
    + intros [= <-]. constructor.
    + intros ->%Forall2_nil_inv_l. done.
  - rewrite rbind_Ok. split.
    + intros (y & Hy & Hrest). apply rbind_Ok in Hrest as (ys' & Hys' & [= <-]).
      constructor; [done | by apply IH].
    + intros (y & ys' & Hy & Hys' & ->)%Forall2_cons_inv_l.
      exists y. split; [done|]. apply IH in Hys'. by rewrite Hys'.
Qed.

Lemma rmap_total {A B : Type} (f : A → result B) (l : list A) :
  Forall (λ x, ∃ y, f x = Ok y) l → ∃ ys, rmap f l = Ok ys.
Proof.
  induction 1 as [|x l [y Hy] _ [ys Hys]]; simpl.
  - by exists [].
  - exists (y :: ys). by rewrite Hy, Hys.
Qed.

(** ** Reading the file *)

Lemma foldl_app_concat {A : Type} (acc : list A) (pages : list (list A)) :
  foldl (λ blocks page, blocks ++ page) acc pages = acc ++ concat pages.
Proof.
  revert acc. induction pages as [|p pages IH]; intros acc; simpl.
  - by rewrite app_nil_r.
  - by rewrite IH, app_assoc.
Qed.

Lemma load_blocks_concat (w : world) (pages : list (list Block)) :
  file w = Some pages → load_blocks w = (w, Ok (concat pages)).
Proof. intros H. unfold load_blocks. by rewrite H, foldl_app_concat. Qed.

(** ** The missing indexes *)

Lemma index_lookup_Ok (blk : Block) (i : Z) :
  (try v := getitem blk "block_index" in as_int v) = Ok i ↔ has_index blk i.
Proof.
  unfold has_index, getitem.
  destruct (blk !! "block_index") as [[z|s]|]; simpl; naive_solver.
Qed.

Lemma block_indexes_Ok (blocks : list Block) :
  Forall (λ blk, ∃ i, has_index blk i) blocks →
  ∃ s, block_indexes blocks = Ok s ∧
       ∀ i, i ∈ s ↔ ∃ blk, blk ∈ blocks ∧ has_index blk i.
Proof.
  intros Hall. unfold block_indexes.
  destruct (rmap_total (λ b, try v := getitem b "block_index" in as_int v) blocks)
    as [indexes Hidx].
  { eapply Forall_impl; [exact Hall|]. intros blk [i Hi]. exists i.
    by apply index_lookup_Ok. }
  rewrite Hidx. simpl. eexists; split; [done|].
  intros i. rewrite elem_of_list_to_set. apply rmap_Ok in Hidx.
  split.
  - intros Hi. apply list_elem_of_lookup in Hi as [n Hn].
    destruct (Forall2_lookup_r _ _ _ _ _ Hidx Hn) as (blk & Hblk & Hf).
    exists blk. split; [by eapply list_elem_of_lookup_2 | by apply index_lookup_Ok].
  - intros (blk & Hin & Hi). apply list_elem_of_lookup in Hin as [n Hn].
    destruct (Forall2_lookup_l _ _ _ _ _ Hidx Hn) as (j & Hj & Hf).
    apply index_lookup_Ok in Hf. unfold has_index in *.
    assert (j = i) as -> by congruence. by eapply list_elem_of_lookup_2.
Qed.

Lemma foldl_max_spec (x : Z) (l : list Z) :
  foldl Z.max x l ∈ x :: l ∧ ∀ y, y ∈ x :: l → (y ≤ foldl Z.max x l)%Z.
Proof.
  revert x. induction l as [|z l IH]; intros x; simpl.
  - split; [by left|]. intros y ->%list_elem_of_singleton. lia.
  - destruct (IH (Z.max x z)) as [Hin Hle]. split.
    + apply elem_of_cons in Hin as [Heq|Hin].
      * rewrite Heq. destruct (Z.max_spec x z) as [[_ ->]|[_ ->]];
          [right; left | left].
      * right. by right.
    + intros y Hy. apply elem_of_cons in Hy as [->|Hy].
      * etrans; [|apply Hle; left]. lia.
      * apply elem_of_cons in Hy as [->|Hy].
        -- etrans; [|apply Hle; left]. lia.
        -- apply Hle. by right.
Qed.

Lemma py_max_spec (s : gset Z) :
  s ≠ ∅ → ∃ m, py_max s = Ok m ∧ m ∈ s ∧ ∀ y, y ∈ s → (y ≤ m)%Z.
Proof.
  intros Hne. unfold py_max.
  destruct (elements s) as [|x l] eqn:Hel.
  - apply elements_empty_inv in Hel. by apply leibniz_equiv in Hel.
  - destruct (foldl_max_spec x l) as [Hin Hle].
    exists (foldl Z.max x l). split; [done|].
    rewrite <- Hel in Hin, Hle. setoid_rewrite elem_of_elements in Hle.
    apply elem_of_elements in Hin. done.
Qed.

Lemma elem_of_py_range (start stop i : Z) :
  i ∈ py_range start stop ↔ (start ≤ i < stop)%Z.
Proof. unfold py_range. rewrite elem_of_seqZ. lia. Qed.

(** C1: for a non-empty store whose records carry integer indexes, the
    reconciler's [missing_blocks] is defined and is exactly the range from 0
    to the largest observed index without the observed indexes; when the
    observed indexes are 0, 1, 3 and 5 the missing ones are 2 and 4. *)
Theorem missing_blocks_is_set_difference (blocks : list Block) :
  blocks ≠ [] →
  Forall (λ blk, ∃ i, has_index blk i) blocks →
  ∃ missing max_index,
    missing_blocks blocks = Ok missing
    ∧ (∃ blk, blk ∈ blocks ∧ has_index blk max_index)
    ∧ (∀ blk i, blk ∈ blocks → has_index blk i → (i ≤ max_index)%Z)
    ∧ (∀ i, i ∈ missing ↔
            (0 ≤ i ≤ max_index)%Z ∧ ¬ ∃ blk, blk ∈ blocks ∧ has_index blk i)
    ∧ (block_indexes blocks = Ok {[0%Z; 1%Z; 3%Z; 5%Z]} →
       missing = {[2%Z; 4%Z]}).
Proof.
  intros Hne Hall.
  destruct (block_indexes_Ok blocks Hall) as (s & Hs & Hmem).
  assert (s ≠ ∅) as Hs_ne.
  { destruct blocks as [|blk blocks]; [done|].
    apply Forall_cons in Hall as [[i Hi] _].
    intros ->. apply (not_elem_of_empty (C:=gset Z) i). apply Hmem.
    exists blk. split; [by left | done]. }
  destruct (py_max_spec s Hs_ne) as (m & Hm & Hm_in & Hm_le).
  exists (list_to_set (py_range 0 (m + 1)) ∖ s), m.
  split; [|split; [|split; [|split]]].
  - unfold missing_blocks. rewrite Hs. simpl. by rewrite Hm.
  - by apply Hmem.
  - intros blk i Hin Hi. apply Hm_le, Hmem. eauto.
  - intros i. rewrite elem_of_difference, elem_of_list_to_set, elem_of_py_range.
    rewrite Hmem. split; intros [? ?]; (split; [lia | done]).
  - intros Hobs. rewrite Hs in Hobs. injection Hobs as ->.
    vm_compute in Hm. injection Hm as <-. by vm_compute.
Qed.

(** ** The retry loops *)

Lemma after_failures_nil (w : world) : after_failures [] w = w.
Proof.
  destruct w as [f r s o]. unfold after_failures. simpl.
  by rewrite !Nat.add_0_r, app_nil_r.
Qed.

Lemma after_failures_cons (c : Z) (codes : list Z) (w : world) :
  after_failures codes
    (World (file w) (S (requests w)) (S (slept w)) (stdout w ++ [PrintFailed c]))
  = after_failures (c :: codes) w.
Proof.
  unfold after_failures. simpl. rewrite <- app_assoc. simpl.
  f_equal; lia.
Qed.

Lemma codes_cons (f : nat → Z) (n : nat) :
  f <$> seq 0 (S n) = f 0 :: ((λ k, f (S k)) <$> seq 0 n).
Proof. simpl. f_equal. rewrite <- fmap_S_seq, <- list_fmap_compose. done. Qed.

Section RetryLoops.

Variable net : Network.

Lemma fetch_day_failed (tries : nat) (timestamp : Z) (w : world) :
  status_code (get_blocks net (requests w) timestamp) ≠ 200%Z →
  fetch_day net (S tries) timestamp w
  = fetch_day net tries timestamp
      (after_failures [status_code (get_blocks net (requests w) timestamp)] w).
Proof.
  intros Hcode. rewrite <- after_failures_cons, after_failures_nil.
  simpl. unfold bind at 1. simpl. by case_decide.
Qed.

Lemma fetch_day_succeeded (tries : nat) (timestamp : Z) (w : world) :
  status_code (get_blocks net (requests w) timestamp) = 200%Z →
  fetch_day net (S tries) timestamp w
  = let w' := World (file w) (S (requests w)) (slept w) (stdout w) in
    match json (get_blocks net (requests w) timestamp) with
    | Some page => pickle_dump page w'
    | None => (w', Raise JSONDecodeError)
    end.
Proof.
  intros Hcode. simpl. unfold bind at 1. simpl. case_decide; [|done].
  unfold bind, lift, response_json. by destruct (json _).
Qed.



Lemma fetch_block_failed (tries : nat) (block : Z) (acc : list Block) (w : world) :
  status_code (get_block_height net (requests w) block) ≠ 200%Z →
  fetch_block net (S tries) block acc w
  = fetch_block net tries block acc
      (after_failures [status_code (get_block_height net (requests w) block)] w).
Proof.
  intros Hcode. rewrite <- after_failures_cons, after_failures_nil.
  simpl. unfold bind at 1. simpl. by case_decide.
Qed.

Lemma fetch_block_succeeded (tries : nat) (block : Z) (acc : list Block) (w : world) :
  status_code (get_block_height net (requests w) block) = 200%Z →
  fetch_block net (S tries) block acc w
  = let w' := World (file w) (S (requests w)) (slept w) (stdout w) in
    match json (get_block_height net (requests w) block) with
    | Some result =>
        match result !! "blocks" with
        | Some found => (w', Ok (acc ++ found))
        | None => (w', Raise (KeyError "blocks"))
        end
    | None => (w', Raise JSONDecodeError)
    end.
Proof.
  intros Hcode. simpl. unfold bind at 1. simpl. case_decide; [|done].
  unfold bind, lift, response_json, getitem.
  destruct (json _) as [result|]; [|done]. by destruct (result !! "blocks").
Qed.

Lemma height_codes_S (block : Z) (first n : nat) :
  height_codes net block first (S n)
  = status_code (get_block_height net first block) :: height_codes net block (S first) n.
Proof.
  unfold height_codes. rewrite codes_cons, Nat.add_0_r. f_equal.
  apply list_fmap_ext. intros _ k _. by rewrite Nat.add_succ_r.
Qed.

Lemma fetch_block_failures (n tries : nat) (block : Z) (acc : list Block) (w : world) :
  Forall (λ c, c ≠ 200%Z) (height_codes net block (requests w) n) →
  fetch_block net (n + tries) block acc w
  = fetch_block net tries block acc
      (after_failures (height_codes net block (requests w) n) w).
Proof.
  revert w. induction n as [|n IH]; intros w Hcodes.
  - by rewrite after_failures_nil.
  - rewrite height_codes_S in Hcodes |- *.
    apply Forall_cons in Hcodes as [H0 Hcodes].
    change (S n + tries) with (S (n + tries)).
    rewrite fetch_block_failed by done.
    rewrite <- after_failures_cons, after_failures_nil.
    rewrite IH by done. by rewrite after_failures_cons.
Qed.

(** *** The fetcher cell as a whole *)

Lemma fetch_day_outcome (tries : nat) (timestamp : Z) (w : world) :
  ∃ w' r,
    fetch_day net tries timestamp w = (w', r)
    ∧ (file w' = file w
       ∨ ∃ page, file w' = Some (default [] (file w) ++ [page])
                 ∧ served net timestamp page).
Proof.
  revert w. induction tries as [|tries IH]; intros w.
  - exists w, (Ok tt). split; [done | by left].
  - destruct (decide (status_code (get_blocks net (requests w) timestamp) = 200%Z))
      as [Hok|Hfail].
    + rewrite fetch_day_succeeded by done. cbn zeta.
      destruct (json _) as [page|] eqn:Hpage.
      * do 2 eexists. split; [done|]. right. exists page. split; [done|].
        by exists (requests w).
      * do 2 eexists. split; [done | by left].
    + rewrite fetch_day_failed by done.
      destruct (IH (after_failures
                      [status_code (get_blocks net (requests w) timestamp)] w))
        as (w' & r & -> & Hfile).
      by exists w', r.
Qed.

Lemma fetch_days_outcome (days : list Z) (w : world) (pages : list (list Block)) :
  file w = Some pages →
  ∃ w' r more,
    for_each days
      (λ timestamp, print (PrintInt timestamp) ;; fetch_day net 5 timestamp) w
    = (w', r)
    ∧ file w' = Some (pages ++ more)
    ∧ length more ≤ length days
    ∧ Forall (λ page, ∃ timestamp, timestamp ∈ days ∧ served net timestamp page) more.
Proof.
  revert w pages. induction days as [|day days IH]; intros w pages Hfile.
  - exists w, (Ok tt), []. rewrite app_nil_r.
    split; [done|]. split; [done|]. split; [done | constructor].
  - cbn [for_each]. unfold bind at 1. unfold bind at 1, print at 1.
    match goal with
    | |- context [fetch_day net 5 day ?w0] =>
        destruct (fetch_day_outcome 5 day w0) as (w1 & r1 & -> & Hfile1)
    end.
    cbn [file] in Hfile1. rewrite Hfile in Hfile1. cbn [default] in Hfile1.
    assert (∃ step, file w1 = Some (pages ++ step) ∧ length step ≤ 1
                    ∧ Forall (served net day) step) as (step & Hw1 & Hlen & Hstep).
    { destruct Hfile1 as [Hsame | (page & Hadd & Hserved)].
      - exists []. rewrite app_nil_r.
        split; [done|]. split; [simpl; lia | constructor].
      - exists [page]. split; [done|]. split; [done | by constructor]. }
    destruct r1 as [[]|e].
    + destruct (IH w1 (pages ++ step) Hw1) as (w' & r & more & -> & Hw' & Hlen' & Hmore).
      exists w', r, (step ++ more). split; [done|]. rewrite app_assoc.
      split; [done|]. split; [rewrite length_app; simpl; lia|].
      apply Forall_app. split.
      * eapply Forall_impl; [done|]. intros page ?. exists day. split; [by left|done].
      * eapply Forall_impl; [done|]. intros page (ts & ? & ?). exists ts.
        split; [by right | done].
    + exists w1, (Raise e), step. split; [done|]. split; [done|].
      split; [simpl; lia|].
      eapply Forall_impl; [done|]. intros page ?. exists day. split; [by left|done].
Qed.

Lemma fetch_block_outcome (tries : nat) (block : Z) (acc : list Block) (w : world) :
  ∃ w' r,
    fetch_block net tries block acc w = (w', r)
    ∧ file w' = file w
    ∧ ∀ acc', r = Ok acc' →
        acc' = acc ∨ ∃ found, acc' = acc ++ found ∧ recovered_from net block found.
Proof.
  revert w. induction tries as [|tries IH]; intros w.
  - exists w, (Ok acc). split; [done|]. split; [done|]. intros ? [= <-]. by left.
  - destruct (decide (status_code (get_block_height net (requests w) block) = 200%Z))
      as [Hok|Hfail].
    + rewrite fetch_block_succeeded by done. simpl.
      destruct (json _) as [body|] eqn:Hbody; [|raised].
      destruct (body !! "blocks") as [found|] eqn:Hfound; [|raised].
      do 2 eexists. split; [done|]. split; [done|].
      intros ? [= <-]. right. exists found. split; [done|].
      by exists (requests w), body.
    + rewrite fetch_block_failed by done.
      destruct (IH (after_failures
                      [status_code (get_block_height net (requests w) block)] w))
        as (w' & r & -> & Hfile & Hacc).
      by exists w', r.
Qed.

Lemma fetch_blocks_outcome (l : list Z) (acc : list Block) (w : world) :
  ∃ w' r,
    for_acc l (fetch_block net 5) acc w = (w', r)
    ∧ file w' = file w
    ∧ ∀ acc', r = Ok acc' →
        ∃ founds, acc' = acc ++ concat founds
                  ∧ Forall (λ found, ∃ i, i ∈ l ∧ recovered_from net i found) founds.
Proof.
  revert acc w. induction l as [|i l IH]; intros acc w.
  - exists w, (Ok acc). split; [done|]. split; [done|].
    intros ? [= <-]. exists []. by rewrite app_nil_r.
  - cbn [for_acc]. unfold bind at 1.
    destruct (fetch_block_outcome 5 i acc w) as (w1 & r1 & -> & Hfile1 & Hacc1).
    destruct r1 as [acc1|e]; [|raised].
    destruct (IH acc1 w1) as (w' & r & -> & Hfile & Hacc).
    exists w', r. split; [done|]. split; [congruence|].
    intros acc' ->. destruct (Hacc acc' eq_refl) as (founds & -> & Hfounds).
    assert (Forall (λ found, ∃ i0, i0 ∈ i :: l ∧ recovered_from net i0 found) founds)
      as Hfounds'.
    { eapply Forall_impl; [done|]. intros found (i0 & ? & ?). exists i0.
      split; [by right | done]. }
    destruct (Hacc1 acc1 eq_refl) as [->|(found & -> & Hrec)].
    + by exists founds.
    + exists (found :: founds). simpl. rewrite app_assoc. split; [done|].
      constructor; [|done]. exists i. split; [by left | done].
Qed.

(** *** Projection to the core fields *)

Lemma project_Ok (record projected : Block) :
  project record = Ok projected → projection_of record projected.
Proof.
  unfold project, getitem.
  destruct (record !! "hash") as [h|] eqn:Hh; [|done].
  destruct (record !! "height") as [g|] eqn:Hg; [|done].
  destruct (record !! "time") as [t|] eqn:Ht; [|done].
  destruct (record !! "block_index") as [i|] eqn:Hi; [|done].
  simpl. intros [= <-]. split.
  - rewrite !dom_insert_L, dom_empty_L. unfold core_fields. set_solver.
  - intros k Hk. unfold core_fields in Hk.
    rewrite !elem_of_union, !elem_of_singleton in Hk.
    destruct Hk as [[[-> | ->] | ->] | ->]; by simplify_map_eq.
Qed.

Lemma project_total (record : Block) :
  (∀ k, k ∈ core_fields → is_Some (record !! k)) →
  ∃ projected, project record = Ok projected.
Proof.
  intros Hall. unfold project, getitem.
  destruct (Hall "hash") as [h ->]; [unfold core_fields; set_solver|].
  destruct (Hall "height") as [g ->]; [unfold core_fields; set_solver|].
  destruct (Hall "time") as [t ->]; [unfold core_fields; set_solver|].
  destruct (Hall "block_index") as [i ->]; [unfold core_fields; set_solver|].
  simpl. eauto.
Qed.

(** *** The reconciler cell as a whole *)

(** The order in which the missing indexes are visited is any enumeration
    of the set without repetition. *)
Variable set_iter : gset Z → list Z.
Hypothesis set_iter_perm : ∀ s, set_iter s ≡ₚ elements s.

Lemma elem_of_set_iter (s : gset Z) (i : Z) : i ∈ set_iter s ↔ i ∈ s.
Proof. by rewrite (set_iter_perm s), elem_of_elements. Qed.

Lemma set_iter_empty : set_iter ∅ = [].
Proof. apply Permutation_nil_r. by rewrite (set_iter_perm ∅), elements_empty. Qed.

Lemma reconciler_outcome (w : world) :
  ∃ w' r,
    reconciler net set_iter w = (w', r)
    ∧ match r with
      | Ok _ => reconciled net w w'
      | Raise _ => file w' = file w
      end.
Proof.
  unfold reconciler. unfold bind at 1, load_blocks.
  destruct (file w) as [pages|] eqn:Hfile; [|by eauto].
  rewrite foldl_app_concat. cbn [app].
  unfold bind at 1, lift.
  destruct (missing_blocks (concat pages)) as [missing|e] eqn:Hmissing; [|by eauto].
  unfold bind at 1, print at 1. unfold bind at 1, print at 1.
  unfold bind at 1, print at 1. cbn [file requests slept stdout].
  unfold bind at 1.
  match goal with
  | |- context [for_acc _ _ [] ?w0] =>
      destruct (fetch_blocks_outcome (set_iter missing) [] w0)
        as (w1 & r1 & -> & Hfile1 & Hacc)
  end.
  simpl in Hfile1.
  destruct r1 as [blocks_to_add|e]; [|exists w1; eexists; split; [done|congruence]].
  destruct (Hacc _ eq_refl) as (founds & -> & Hfounds). simpl.
  unfold bind at 1, lift.
  destruct (rmap project (concat founds)) as [projected|e] eqn:Hproj;
    [|exists w1; eexists; split; [done|congruence]].
  eexists _, (Ok tt). split; [reflexivity|].
  exists pages, missing, founds, projected.
  split; [done|]. split; [done|]. split; [|split; [|done]].
  - eapply Forall_impl; [done|]. intros found (i & Hi & Hrec). exists i.
    split; [by apply elem_of_set_iter | done].
  - apply rmap_Ok in Hproj. eapply Forall2_impl; [done|].
    intros record p. apply project_Ok.
Qed.

Lemma reconciler_unfold (w : world) (pages : list (list Block)) (missing : gset Z) :
  file w = Some pages →
  missing_blocks (concat pages) = Ok missing →
  reconciler net set_iter w
  = match for_acc (set_iter missing) (fetch_block net 5) []
            (announced (concat pages) missing w) with
    | (w1, Ok blocks_to_add) =>
        match rmap project blocks_to_add with
        | Ok projected =>
            (World (Some [concat pages ++ projected])
                   (requests w1) (slept w1) (stdout w1), Ok tt)
        | Raise e => (w1, Raise e)
        end
    | (w1, Raise e) => (w1, Raise e)
    end.
Proof.
  intros Hfile Hmissing.
  unfold reconciler. unfold bind at 1, load_blocks.
  rewrite Hfile, foldl_app_concat. cbn [app].
  unfold bind at 1, lift. rewrite Hmissing.
  unfold bind at 1, print at 1. unfold bind at 1, print at 1.
  unfold bind at 1, print at 1. cbn [file requests slept stdout].
  unfold bind at 1. fold (announced (concat pages) missing w).
  destruct (for_acc _ _ _ _) as [w1 [blocks_to_add|e]]; [|done].
  unfold bind at 1, lift.
  by destruct (rmap project blocks_to_add).
Qed.




Lemma fetch_block_total (tries : nat) (block : Z) (acc : list Block) (w : world) :
  well_formed_upstream net →
  ∃ w' acc', fetch_block net tries block acc w = (w', Ok acc').
Proof.
  intros Hwf. revert w. induction tries as [|tries IH]; intros w.
  - by exists w, acc.
  - destruct (decide (status_code (get_block_height net (requests w) block) = 200%Z))
      as [Hok|Hfail].
    + rewrite fetch_block_succeeded by done.
      destruct (Hwf _ _ Hok) as (body & found & -> & Hfound & _).
      cbn zeta. rewrite Hfound. eauto.
    + rewrite fetch_block_failed by done. apply IH.
Qed.

Lemma fetch_blocks_total (l : list Z) (acc : list Block) (w : world) :
  well_formed_upstream net →
  ∃ w' acc', for_acc l (fetch_block net 5) acc w = (w', Ok acc').
Proof.
  intros Hwf. revert acc w. induction l as [|i l IH]; intros acc w.
  - by exists w, acc.
  - cbn [for_acc]. unfold bind at 1.
    destruct (fetch_block_total 5 i acc w Hwf) as (w1 & acc1 & ->). apply IH.
Qed.

Lemma fetch_blocks_silent (l : list Z) (acc : list Block) (w : world) :
  upstream_silent net →
  ∃ w', for_acc l (fetch_block net 5) acc w = (w', Ok acc) ∧ file w' = file w.
Proof.
  intros Hsilent. revert w. induction l as [|i l IH]; intros w.
  - by exists w.
  - cbn [for_acc]. unfold bind at 1.
    rewrite (fetch_block_failures 5 0).
    + change (fetch_block net 0 i acc ?w0) with (w0, Ok acc).
      destruct (IH (after_failures (height_codes net i (requests w) 5) w))
        as (w' & -> & Hfile).
      by exists w'.
    + unfold height_codes. apply Forall_fmap, Forall_forall. intros k _. apply Hsilent.
Qed.

Lemma recovered_well_formed (i : Z) (found : list Block) :
  well_formed_upstream net → recovered_from net i found →
  Forall (λ record, ∀ k, k ∈ core_fields → is_Some (record !! k)) found.
Proof.
  intros Hwf (n & body & Hcode & Hbody & Hfound).
  destruct (Hwf _ _ Hcode) as (body' & found' & Hbody' & Hfound' & Hall).
  congruence.
Qed.

Lemma reconciler_total (w : world) (pages : list (list Block)) (missing : gset Z) :
  well_formed_upstream net →
  file w = Some pages →
  missing_blocks (concat pages) = Ok missing →
  ∃ w', reconciler net set_iter w = (w', Ok tt).
Proof.
  intros Hwf Hfile Hmissing. rewrite (reconciler_unfold w pages missing) by done.
  destruct (fetch_blocks_outcome (set_iter missing) []
              (announced (concat pages) missing w)) as (w1 & r & Hrun & _ & Hacc).
  destruct (fetch_blocks_total (set_iter missing) []
              (announced (concat pages) missing w) Hwf) as (w1' & acc' & Hrun').
  rewrite Hrun' in Hrun |- *. injection Hrun as <- <-.
  destruct (Hacc _ eq_refl) as (founds & -> & Hfounds). cbn [app].
  destruct (rmap_total project (concat founds)) as [projected ->]; [|by eauto].
  apply Forall_concat. eapply Forall_impl; [done|].
  intros found (i & _ & Hrec). simpl.
  eapply Forall_impl; [by eapply recovered_well_formed|].
  intros record Hall. by apply project_total.
Qed.

Lemma height_codes_lookup (i : Z) (n m k : nat) :
  Forall (λ c, c ≠ 200%Z) (height_codes net i n m) → k < m →
  status_code (get_block_height net (n + k) i) ≠ 200%Z.
Proof.
  intros Hall Hk. rewrite Forall_lookup in Hall. apply (Hall k).
  unfold height_codes. rewrite list_lookup_fmap.
  by rewrite (proj2 (lookup_seq 0 m k k)) by (split; lia).
Qed.

Lemma kept_blocks_unique (l : list Z) (n : nat) (kept1 kept2 : list Block)
    (n1 n2 : nat) :
  kept_blocks net l n kept1 n1 → kept_blocks net l n kept2 n2 →
  kept1 = kept2 ∧ n1 = n2.
Proof.
  intros H1. revert kept2 n2.
  induction H1 as [n | i l n rest n' Hfail _ IH
                  | i l n k body found rest n' Hk Hfail Hcode Hbody Hfound _ IH];
    intros kept2 n2 H2; inversion H2; subst.
  - done.
  - by apply IH.
  - exfalso. by eapply (height_codes_lookup i n 5).
  - exfalso. by eapply (height_codes_lookup i n 5 k).
  - assert (k0 = k) as ->.
    { destruct (Nat.lt_trichotomy k0 k) as [Hlt | [-> | Hlt]]; [|done|].
      - exfalso. by eapply (height_codes_lookup i n k k0).
      - exfalso. by eapply (height_codes_lookup i n k0 k). }
    assert (body0 = body) as -> by congruence.
    assert (found0 = found) as -> by congruence.
    match goal with
    | H : kept_blocks net l (n + S k) _ _ |- _ => destruct (IH _ _ H) as [-> ->]
    end.
    done.
Qed.

Lemma fetch_block_kept (tries : nat) (i : Z) (acc acc' : list Block) (w w' : world) :
  fetch_block net tries i acc w = (w', Ok acc') →
  (Forall (λ c, c ≠ 200%Z) (height_codes net i (requests w) tries)
   ∧ acc' = acc ∧ requests w' = requests w + tries)
  ∨ ∃ k body found,
      k < tries
      ∧ Forall (λ c, c ≠ 200%Z) (height_codes net i (requests w) k)
      ∧ status_code (get_block_height net (requests w + k) i) = 200%Z
      ∧ json (get_block_height net (requests w + k) i) = Some body
      ∧ body !! "blocks" = Some found
      ∧ acc' = acc ++ found
      ∧ requests w' = requests w + S k.
Proof.
  revert w. induction tries as [|tries IH]; intros w.
  - intros [= <- <-]. left. split; [constructor|]. split; [done | lia].
  - destruct (decide (status_code (get_block_height net (requests w) i) = 200%Z))
      as [Hok|Hfail].
    + rewrite fetch_block_succeeded by done. cbn zeta.
      destruct (json _) as [body|] eqn:Hbody; [|done].
      destruct (body !! "blocks") as [found|] eqn:Hfound; [|done].
      intros [= <- <-]. right. exists 0, body, found.
      rewrite Nat.add_0_r. split; [lia|]. split; [constructor|].
      split; [done|]. split; [done|]. split; [done|]. split; [done|]. simpl. lia.
    + rewrite fetch_block_failed by done. intros Hrun.
      apply IH in Hrun. simpl in Hrun.
      replace (requests w + 1) with (S (requests w)) in Hrun by lia.
      destruct Hrun as [(Hall & -> & Hreq)
                       | (k & body & found & Hk & Hall & Hcode & Hbody & Hfound & -> & Hreq)].
      * left. rewrite height_codes_S. split; [by constructor|]. split; [done | lia].
      * right. exists (S k), body, found. rewrite height_codes_S.
        replace (requests w + S k) with (S (requests w) + k) by lia.
        split; [lia|]. split; [by constructor|].
        split; [done|]. split; [done|]. split; [done|]. split; [done | lia].
Qed.

Lemma fetch_blocks_kept (l : list Z) (acc acc' : list Block) (w w' : world) :
  for_acc l (fetch_block net 5) acc w = (w', Ok acc') →
  ∃ added, acc' = acc ++ added
           ∧ kept_blocks net l (requests w) added (requests w').
Proof.
  revert acc w. induction l as [|i l IH]; intros acc w.
  - intros [= <- <-]. exists []. rewrite app_nil_r. split; [done | constructor].
  - cbn [for_acc]. unfold bind at 1.
    destruct (fetch_block net 5 i acc w) as [w1 [acc1|e]] eqn:Hunit; [|done].
    intros (added & -> & Hkept)%IH.
    apply fetch_block_kept in Hunit
      as [(Hall & -> & Hreq)
         | (k & body & found & Hk & Hall & Hcode & Hbody & Hfound & -> & Hreq)].
    + exists added. split; [done|]. apply kept_exhausted; [done|].
      by rewrite <- Hreq.
    + exists (found ++ added). rewrite app_assoc. split; [done|].
      eapply kept_answer; [done..|]. by rewrite <- Hreq.
Qed.

Lemma reconciler_kept (w w' : world) :
  reconciler net set_iter w = (w', Ok tt) →
  ∃ pages missing blocks_to_add projected,
    file w = Some pages
    ∧ missing_blocks (concat pages) = Ok missing
    ∧ kept_blocks net (set_iter missing) (requests w) blocks_to_add (requests w')
    ∧ Forall2 projection_of blocks_to_add projected
    ∧ file w' = Some [concat pages ++ projected].
Proof.
  intros Hrun. destruct (reconciler_outcome w) as (w1 & r & Hrun1 & Hout).
  rewrite Hrun in Hrun1. injection Hrun1 as <- <-.
  destruct Hout as (pages & missing & _ & _ & Hfile & Hmissing & _).
  rewrite (reconciler_unfold w pages missing) in Hrun by done.
  destruct (for_acc _ _ _ _) as [w1 [blocks_to_add|e]] eqn:Hloop; [|done].
  destruct (rmap project blocks_to_add) as [projected|e] eqn:Hproj; [|done].
  injection Hrun as <-.
  apply fetch_blocks_kept in Hloop as (added & -> & Hkept). cbn [app] in Hproj.
  exists pages, missing, added, projected.
  split; [done|]. split; [done|]. split; [exact Hkept|]. split; [|done].
  apply rmap_Ok in Hproj. eapply Forall2_impl; [done|].
  intros record p. apply project_Ok.
Qed.

(** C9: when the reconciler completes, the file it leaves is one page that
    holds every block that was stored before, in order, followed by the
    recovered records.  The recovered records are, in the order in which the
    missing indexes were asked for, all the records of the ['blocks'] list
    of the first successful answer of each missing index (none for an index
    whose five answers failed), each record replaced by its projection to
    the four core fields.  The answers determine what is kept.  The previous
    pages are gone.  The reconciler does complete when the store can be
    analysed and the upstream answers are well formed. *)
Theorem reconciler_projects_and_rewrites (w : world) :
  (∀ w', reconciler net set_iter w = (w', Ok tt) →
     ∃ pages missing blocks_to_add projected,
       file w = Some pages
       ∧ missing_blocks (concat pages) = Ok missing
       ∧ kept_blocks net (set_iter missing) (requests w) blocks_to_add (requests w')
       ∧ Forall2 projection_of blocks_to_add projected
       ∧ file w' = Some [concat pages ++ projected])
  ∧ (∀ l n kept1 n1 kept2 n2,
       kept_blocks net l n kept1 n1 → kept_blocks net l n kept2 n2 →
       kept1 = kept2 ∧ n1 = n2)
  ∧ (well_formed_upstream net →
     ∀ pages missing,
       file w = Some pages → missing_blocks (concat pages) = Ok missing →
       ∃ w', reconciler net set_iter w = (w', Ok tt)).
Proof.
  split; [|split].
  - intros w'. apply reconciler_kept.
  - intros l n kept1 n1 kept2 n2. apply kept_blocks_unique.
  - intros Hwf pages missing. by apply reconciler_total.
Qed.

(** *** Runs that recover nothing *)

Lemma reconciler_nothing_recovered (w : world) (pages : list (list Block))
    (missing : gset Z) :
  file w = Some pages →
  missing_blocks (concat pages) = Ok missing →
  missing = ∅ ∨ upstream_silent net →
  ∃ w', reconciler net set_iter w = (w', Ok tt)
        ∧ file w' = Some [concat pages]
        ∧ (missing = ∅ → requests w' = requests w).
Proof.
  intros Hfile Hmissing Hnothing.
  rewrite (reconciler_unfold w pages missing) by done.
  destruct (decide (missing = ∅)) as [-> | Hne].
  - rewrite set_iter_empty. cbn [for_acc ret rmap]. rewrite app_nil_r.
    eexists. split; [done|]. split; done.
  - destruct Hnothing as [-> | Hsilent]; [done|].
    destruct (fetch_blocks_silent (set_iter missing) []
                (announced (concat pages) missing w) Hsilent) as (w1 & -> & _).
    cbn [rmap]. rewrite app_nil_r.
    eexists. split; [done|]. split; done.
Qed.

(** C4: when no index is missing, or when upstream has nothing to give,
    the reconciler completes and writes back the blocks it read, unchanged
    and in the same order, as one page; the set of stored indexes is the
    same.  A second run then leaves the file exactly as the first one left
    it.  With no index missing no request is made. *)
Theorem reconciler_idempotent (w : world) (pages : list (list Block))
    (missing : gset Z) :
  file w = Some pages →
  missing_blocks (concat pages) = Ok missing →
  missing = ∅ ∨ upstream_silent net →
  ∃ w1 w2,
    reconciler net set_iter w = (w1, Ok tt)
    ∧ stored w1 = stored w
    ∧ block_indexes (stored w1) = block_indexes (stored w)
    ∧ (missing = ∅ → requests w1 = requests w)
    ∧ reconciler net set_iter w1 = (w2, Ok tt)
    ∧ file w2 = file w1
    ∧ block_indexes (stored w2) = block_indexes (stored w).
Proof.
  intros Hfile Hmissing Hnothing.
  destruct (reconciler_nothing_recovered w pages missing Hfile Hmissing Hnothing)
    as (w1 & Hrun1 & Hfile1 & Hreq1).
  assert (stored w1 = stored w) as Hstored1.
  { unfold stored. rewrite Hfile, Hfile1. simpl. by rewrite app_nil_r. }
  destruct (reconciler_nothing_recovered w1 [concat pages] missing)
    as (w2 & Hrun2 & Hfile2 & _); [done | | done |].
  { simpl. by rewrite app_nil_r. }
  exists w1, w2.
  split; [done|]. split; [done|]. split; [by rewrite Hstored1|].
  split; [done|]. split; [done|].
  assert (file w2 = file w1) as Hsame.
  { rewrite Hfile1, Hfile2. simpl. by rewrite app_nil_r. }
  split; [done|]. unfold stored at 1. by rewrite Hsame, <- Hstored1.
Qed.

(** *** What the stages do to the file *)

(** C3 (amended): the fetcher begins by emptying the file, so that its
    result is the same whatever the file held before.  From then on the file
    only grows at its end: one run of the retry loop leaves it as it was or
    adds one page, the body of a successful answer for that day, and at the
    end of the stage the file holds such pages, at most one per day.  The
    reconciler replaces the file by one page when it completes and leaves it
    as it was when an exception stops it. *)
Theorem fetcher_truncates_then_appends (end_time : Z) (w : world) :
  (∀ previous,
     fetcher net end_time (World previous (requests w) (slept w) (stdout w))
     = fetcher net end_time w)
  ∧ (∃ w' r pages,
       fetcher net end_time w = (w', r)
       ∧ file w' = Some pages
       ∧ length pages ≤ length (py_range_step start_time end_time one_day)
       ∧ Forall (λ page, ∃ timestamp,
                   timestamp ∈ py_range_step start_time end_time one_day
                   ∧ served net timestamp page) pages)
  ∧ (∀ timestamp w0, ∃ w1 r,
       fetch_day net 5 timestamp w0 = (w1, r)
       ∧ (file w1 = file w0
          ∨ ∃ page, file w1 = Some (default [] (file w0) ++ [page])
                    ∧ served net timestamp page))
  ∧ (∃ w' r,
       reconciler net set_iter w = (w', r)
       ∧ match r with
         | Ok _ => ∃ page, file w' = Some [page]
         | Raise _ => file w' = file w
         end).
Proof.
  split; [|split; [|split]].
  - done.
  - unfold fetcher. unfold bind at 1, open_wb.
    destruct (fetch_days_outcome (py_range_step start_time end_time one_day)
                (World (Some []) (requests w) (slept w) (stdout w)) [] eq_refl)
      as (w' & r & more & -> & Hfile & Hlen & Hmore).
    by exists w', r, more.
  - intros timestamp w0. apply fetch_day_outcome.
  - destruct (reconciler_outcome w) as (w' & r & Hrun & Hout).
    exists w', r. split; [done|]. destruct r as [[]|e]; [|done].
    destruct Hout as (pages & missing & founds & projected & _ & _ & _ & _ & Hfile).
    eauto.
Qed.

End RetryLoops.

(** ** Sorting by index *)

Lemma insert_by_key_perm (x : Z * Block) (l : list (Z * Block)) :
  insert_by_key x l ≡ₚ x :: l.
Proof.
  induction l as [|y l IH]; [done|]. simpl. case_decide; [done|].
  by rewrite IH, Permutation_swap.
Qed.

Lemma sort_by_key_perm (l : list (Z * Block)) : sort_by_key l ≡ₚ l.
Proof.
  induction l as [|x l IH]; [done|]. unfold sort_by_key in *. simpl.
  by rewrite insert_by_key_perm, IH.
Qed.

Lemma insert_by_key_ascending (x : Z * Block) (l : list (Z * Block)) :
  ascending l → ascending (insert_by_key x l).
Proof.
  unfold ascending. induction 1 as [|y l Hl IH Hy]; simpl.
  - repeat constructor.
  - case_decide as Hxy.
    + constructor; [by constructor|]. constructor; [done|].
      eapply Forall_impl; [done|]. intros z ?. simpl in *. lia.
    + constructor; [done|]. rewrite insert_by_key_perm.
      constructor; [lia | done].
Qed.

Lemma sort_by_key_ascending (l : list (Z * Block)) : ascending (sort_by_key l).
Proof.
  induction l as [|x l IH]; [constructor|].
  by apply insert_by_key_ascending.
Qed.

(** Stability: the elements with a given key keep their relative order. *)
Lemma insert_by_key_stable (k : Z) (x : Z * Block) (l : list (Z * Block)) :
  ascending l →
  filter (λ y, y.1 = k) (insert_by_key x l) = filter (λ y, y.1 = k) (x :: l).
Proof.
  unfold ascending. induction 1 as [|y l Hl IH Hy]; [done|]. simpl.
  case_decide as Hxy; [done|].
  rewrite (filter_cons _ y), IH, !(filter_cons _ x), (filter_cons _ y).
  destruct (decide (x.1 = k)) as [Hx|Hx]; [|done].
  destruct (decide (y.1 = k)) as [Hyk|Hyk]; [lia | done].
Qed.

Lemma sort_by_key_stable (k : Z) (l : list (Z * Block)) :
  filter (λ y, y.1 = k) (sort_by_key l) = filter (λ y, y.1 = k) l.
Proof.
  induction l as [|x l IH]; [done|]. unfold sort_by_key in *. simpl.
  rewrite insert_by_key_stable by apply sort_by_key_ascending.
  by rewrite !filter_cons, IH.
Qed.

Lemma ascending_lookup (l : list (Z * Block)) (i j : nat) (x y : Z * Block) :
  ascending l → i < j → l !! i = Some x → l !! j = Some y → (x.1 ≤ y.1)%Z.
Proof.
  unfold ascending. intros Hl. revert i j.
  induction Hl as [|z l Hl IH Hz]; intros i j Hij Hi Hj; [done|].
  destruct j as [|j]; [lia|]. simpl in Hj. destruct i as [|i].
  - injection Hi as <-. eapply Forall_forall in Hz; [done|].
    by eapply list_elem_of_lookup_2.
  - simpl in Hi. eapply IH; [|done..]. lia.
Qed.

(** ** The time-delta series *)

Lemma keyed_Ok (blk : Block) (kb : Z * Block) :
  keyed blk = Ok kb ↔ kb.2 = blk ∧ has_index blk kb.1.
Proof.
  unfold keyed, getitem, has_index. destruct kb as [k b']. simpl.
  destruct (blk !! "block_index") as [[z|s]|]; simpl.
  - split; [by intros [= <- <-] | by intros [-> [= ->]]].
  - split; [done | by intros [_ [=]]].
  - split; [done | by intros [_ [=]]].
Qed.

Lemma decorated_spec (blocks : list Block) :
  Forall (λ blk, ∃ i, has_index blk i) blocks →
  ∃ decorated,
    rmap keyed blocks = Ok decorated
    ∧ decorated.*2 = blocks
    ∧ Forall (λ kb, has_index kb.2 kb.1) decorated.
Proof.
  induction 1 as [|blk blocks [i Hi] _ (decorated & Hdec & Hsnd & Hall)].
  - exists []. by repeat split.
  - exists ((i, blk) :: decorated). simpl.
    assert (keyed blk = Ok (i, blk)) as -> by by apply keyed_Ok.
    simpl. rewrite Hdec. simpl. split; [done|]. split; [by f_equal|].
    by constructor.
Qed.

Lemma sorted_blocks_spec (blocks : list Block) :
  Forall (λ blk, ∃ i, has_index blk i) blocks →
  ∃ sorted,
    sorted_blocks blocks = Ok sorted
    ∧ sorted ≡ₚ blocks
    ∧ index_sorted sorted.
Proof.
  intros Hall. destruct (decorated_spec blocks Hall) as (decorated & Hdec & Hsnd & Hkeys).
  exists ((sort_by_key decorated).*2). split; [|split].
  - unfold sorted_blocks. by rewrite Hdec.
  - by rewrite sort_by_key_perm, Hsnd.
  - intros i j bi bj ki kj Hij Hi Hj Hki Hkj.
    apply list_lookup_fmap_Some in Hi as ([ki' bi'] & -> & Hi).
    apply list_lookup_fmap_Some in Hj as ([kj' bj'] & -> & Hj).
    assert (Forall (λ kb, has_index kb.2 kb.1) (sort_by_key decorated)) as Hkeys'
      by by rewrite sort_by_key_perm.
    rewrite Forall_lookup in Hkeys'.
    pose proof (Hkeys' _ _ Hi) as Hi'. pose proof (Hkeys' _ _ Hj) as Hj'.
    unfold has_index in *. simpl in *.
    assert (ki' = ki) as -> by congruence. assert (kj' = kj) as -> by congruence.
    by apply (ascending_lookup _ _ _ _ _ (sort_by_key_ascending decorated) Hij Hi Hj).
Qed.

Lemma py_index_Ok {A : Type} (l : list A) (i : nat) (x : A) :
  l !! i = Some x → py_index l (Z.of_nat i) = Ok x.
Proof.
  intros Hx. unfold py_index.
  destruct (decide (Z.of_nat i < 0)%Z) as [|_]; [lia|].
  rewrite decide_True by lia. by rewrite Nat2Z.id, Hx.
Qed.

Lemma time_diff_of_ints (times : list Z) :
  ∃ series,
    time_diff_of (PInt <$> times) = Ok series
    ∧ length series = length times - 1
    ∧ ∀ k earlier later,
        times !! k = Some earlier → times !! S k = Some later →
        series !! k = Some (inject_Z (later - earlier) / 60)%Q.
Proof.
  set (delta := λ k, (inject_Z (default 0%Z (times !! S k)
                                 - default 0%Z (times !! k)) / 60)%Q).
  exists (delta <$> seq 0 (length times - 1)). split; [|split].
  - unfold time_diff_of. apply rmap_Ok, Forall2_same_length_lookup. split.
    + unfold py_range. rewrite length_seqZ, !length_fmap, length_seq. lia.
    + intros k i q Hi Hq. unfold py_range in Hi. rewrite length_fmap in Hi.
      apply lookup_seqZ in Hi as [-> Hk].
      apply list_lookup_fmap_Some in Hq as (k' & -> & [-> Hk']%lookup_seq).
      simpl in *.
      destruct (lookup_lt_is_Some_2 times k) as [earlier Hearlier]; [lia|].
      destruct (lookup_lt_is_Some_2 times (S k)) as [later Hlater]; [lia|].
      unfold minutes_between.
      replace (1 + Z.of_nat k)%Z with (Z.of_nat (S k)) by lia.
      rewrite (py_index_Ok _ (S k) (PInt later))
        by by rewrite list_lookup_fmap, Hlater.
      simpl rbind.
      replace (Z.of_nat (S k) - 1)%Z with (Z.of_nat k) by lia.
      rewrite (py_index_Ok _ k (PInt earlier))
        by by rewrite list_lookup_fmap, Hearlier.
      simpl. unfold delta. by rewrite Hlater, Hearlier.
  - by rewrite length_fmap, length_seq.
  - intros k earlier later Hearlier Hlater.
    rewrite list_lookup_fmap.
    assert (S k < length times) as Hlt by by eapply lookup_lt_Some.
    rewrite (proj2 (lookup_seq 0 (length times - 1) k k)) by (split; lia).
    simpl. unfold delta. by rewrite Hlater, Hearlier.
Qed.

Lemma block_times_spec (sorted : list Block) :
  Forall (λ blk, ∃ t, has_time blk t) sorted →
  ∃ times,
    block_times sorted = Ok (PInt <$> times)
    ∧ Forall2 has_time sorted times.
Proof.
  induction 1 as [|blk sorted [t Ht] _ (times & Htimes & Hall)].
  - exists []. split; [done | constructor].
  - exists (t :: times). unfold block_times in *. simpl.
    unfold getitem at 1. unfold has_time in Ht. rewrite Ht. simpl.
    rewrite Htimes. simpl. split; [done | by constructor].
Qed.

Lemma time_diff_entries (blocks : list Block) :
  Forall (λ blk, (∃ i, has_index blk i) ∧ (∃ t, has_time blk t)) blocks →
  ∃ sorted series,
    sorted_blocks blocks = Ok sorted
    ∧ sorted ≡ₚ blocks
    ∧ index_sorted sorted
    ∧ time_diff blocks = Ok series
    ∧ length series = length blocks - 1
    ∧ ∀ k earlier later t_earlier t_later,
        sorted !! k = Some earlier → sorted !! S k = Some later →
        has_time earlier t_earlier → has_time later t_later →
        series !! k = Some (inject_Z (t_later - t_earlier) / 60)%Q.
Proof.
  intros Hall.
  destruct (sorted_blocks_spec blocks) as (sorted & Hsorted & Hperm & Hasc).
  { eapply Forall_impl; [done|]. by intros blk [? _]. }
  destruct (block_times_spec sorted) as (times & Htimes & Hhas).
  { rewrite Hperm. eapply Forall_impl; [done|]. by intros blk [_ ?]. }
  destruct (time_diff_of_ints times) as (series & Hseries & Hlen & Hentries).
  assert (length times = length blocks) as Hlen_times.
  { rewrite <- (Forall2_length _ _ _ Hhas). by rewrite Hperm. }
  exists sorted, series.
  split; [done|]. split; [done|]. split; [done|]. split; [|split].
  - unfold time_diff. rewrite Hsorted. simpl. rewrite Htimes. simpl. done.
  - lia.
  - intros k earlier later t_earlier t_later Hk HSk Hte Htl.
    destruct (Forall2_lookup_l _ _ _ _ _ Hhas Hk) as (te & Hte_k & Hte').
    destruct (Forall2_lookup_l _ _ _ _ _ Hhas HSk) as (tl & Htl_k & Htl').
    unfold has_time in *.
    assert (te = t_earlier) as -> by congruence.
    assert (tl = t_later) as -> by congruence.
    by apply Hentries.
Qed.

(** C6: for records that carry an integer index and an integer timestamp,
    the aggregator's time-delta series is defined; it is computed over the
    records sorted by ascending index (a rearrangement of the stored
    records) and its entry [k] is the difference of the timestamps of the
    sorted records [k+1] and [k], divided by 60.  Its length is the number
    of records minus one, and it is empty for at most one record. *)
Theorem time_diff_series (blocks : list Block) :
  Forall (λ blk, (∃ i, has_index blk i) ∧ (∃ t, has_time blk t)) blocks →
  ∃ sorted series,
    sorted_blocks blocks = Ok sorted
    ∧ sorted ≡ₚ blocks
    ∧ index_sorted sorted
    ∧ time_diff blocks = Ok series
    ∧ (1 ≤ length blocks → Z.of_nat (length series) = (Z.of_nat (length blocks) - 1)%Z)
    ∧ (length blocks ≤ 1 → series = [])
    ∧ ∀ k earlier later t_earlier t_later,
        sorted !! k = Some earlier → sorted !! S k = Some later →
        has_time earlier t_earlier → has_time later t_later →
        series !! k = Some (inject_Z (t_later - t_earlier) / 60)%Q.
Proof.
  intros Hall.
  destruct (time_diff_entries blocks Hall)
    as (sorted & series & Hsorted & Hperm & Hasc & Hseries & Hlen & Hentries).
  exists sorted, series.
  split; [done|]. split; [done|]. split; [done|]. split; [done|].
  split; [lia|]. split; [|done].
  intros Hle. apply length_zero_iff_nil. lia.
Qed.

(** ** Counting long gaps *)

Lemma long_blocks_filter (time_diff : list Q) :
  long_blocks time_diff = filter (λ time, (120 <= time)%Q) time_diff.
Proof.
  induction time_diff as [|d l IH]; [done|].
  unfold long_blocks in *. simpl. rewrite filter_cons, IH.
  destruct (Qle_bool 120 d) eqn:Hd.
  - apply Qle_bool_iff in Hd. by rewrite decide_True.
  - rewrite decide_False; [done|]. intros Hle%Qle_bool_iff. congruence.
Qed.

Lemma Qlen_nonzero {A : Type} (l : list A) : l ≠ [] → Qeq_bool (Qlen l) 0 = false.
Proof.
  intros Hl. destruct l as [|x l]; [done|].
  unfold Qlen, Qeq_bool, inject_Z. simpl length. simpl Qnum. simpl Qden.
  apply Z.eqb_neq. lia.
Qed.

(** C8: for a non-empty delta series [actual] is the number of deltas of
    at least 120 divided by the number of deltas, and this is the value
    reported by the statistics cell whenever it completes;
    [long_block_deltas] is the number of deltas of at least 120, which is 1
    for the series 60, 60, 180, 60. *)
Theorem empirical_tail_probability (time_diff : list Q) :
  time_diff ≠ [] →
  actual time_diff
  = Ok (Qlen (filter (λ time, (120 <= time)%Q) time_diff) / Qlen time_diff)%Q
  ∧ (∀ s, statistics time_diff = Ok s →
          summary_actual s
          = (Qlen (filter (λ time, (120 <= time)%Q) time_diff) / Qlen time_diff)%Q)
  ∧ long_block_deltas time_diff
    = length (filter (λ time, (120 <= time)%Q) time_diff)
  ∧ long_block_deltas [60; 60; 180; 60]%Q = 1.
Proof.
  intros Hne.
  assert (actual time_diff
          = Ok (Qlen (filter (λ time, (120 <= time)%Q) time_diff) / Qlen time_diff)%Q)
    as Hactual.
  { unfold actual, py_truediv. by rewrite Qlen_nonzero, long_blocks_filter. }
  split; [done|]. split; [|split].
  - intros s. unfold statistics. rewrite Hactual.
    destruct (mean time_diff); [|done]. simpl.
    destruct (divide_by_stdev time_diff); [|done]. simpl.
    destruct (py_truediv _ _); [|done]. simpl. by intros [= <-].
  - unfold long_block_deltas. by rewrite long_blocks_filter.
  - reflexivity.
Qed.

(** ** Degenerate input of the statistics cell *)

Lemma Qsum_zero (l : list Q) : Forall (λ x, x == 0)%Q l → (Qsum l == 0)%Q.
Proof.
  induction 1 as [|x l Hx _ IH]; [done|].
  unfold Qsum in *. simpl. rewrite Hx, IH. ring.
Qed.

Lemma Qsum_const (d : Q) (l : list Q) :
  Forall (λ x, x == d)%Q l → (Qsum l == Qlen l * d)%Q.
Proof.
  induction 1 as [|x l Hx _ IH].
  - unfold Qlen. simpl. ring.
  - unfold Qsum, Qlen in *. simpl foldr. rewrite Hx, IH.
    simpl length. rewrite Nat2Z.inj_succ, <- Z.add_1_r, inject_Z_plus. ring.
Qed.

Lemma long_enough_nonempty {A : Type} (l : list A) : 2 ≤ length l → l ≠ [].
Proof. intros Hlen ->. simpl in Hlen. lia. Qed.

Lemma Qlen_positive {A : Type} (l : list A) : l ≠ [] → ¬ (Qlen l == 0)%Q.
Proof.
  intros Hl Heq. apply Qeq_bool_iff in Heq. by rewrite Qlen_nonzero in Heq.
Qed.

Lemma mean_const (d : Q) (data : list Q) :
  data ≠ [] → Forall (λ x, x == d)%Q data →
  ∃ c, mean data = Ok c ∧ (c == d)%Q.
Proof.
  intros Hne Hall. unfold mean.
  rewrite decide_False by (destruct data; [done | simpl; lia]).
  eexists. split; [done|]. rewrite (Qsum_const d) by done.
  field. by apply Qlen_positive.
Qed.

Lemma variance_const (d : Q) (data : list Q) :
  2 ≤ length data → Forall (λ x, x == d)%Q data →
  ∃ var, variance data = Ok var ∧ (var == 0)%Q.
Proof.
  intros Hlen Hall. unfold variance. rewrite decide_False by lia.
  destruct (mean_const d data) as (c & -> & Hc);
    [by apply long_enough_nonempty | done |].
  simpl. eexists. split; [done|].
  rewrite (Qsum_zero ((λ x, (x - c) * (x - c))%Q <$> data)).
  - rewrite (Qsum_zero ((λ x, x - c)%Q <$> data)).
    + unfold Qdiv. ring.
    + apply Forall_fmap. eapply Forall_impl; [done|].
      intros x Hx. simpl. rewrite Hx, Hc. ring.
  - apply Forall_fmap. eapply Forall_impl; [done|].
    intros x Hx. simpl. rewrite Hx, Hc. ring.
Qed.

(** C2 (amended): the statistics cell has no error of its own.  On an
    empty series and on a series of one delta it stops with the
    [StatisticsError] of the statistics library; on a series of at least two
    deltas that are all equal, and on a series of at least two deltas none
    of which reaches 120, it stops with [ZeroDivisionError].  In none of
    these cases does it return a result. *)
Theorem degenerate_statistics (time_diff : list Q) :
  (length time_diff ≤ 1 → statistics time_diff = Raise StatisticsError)
  ∧ (2 ≤ length time_diff → (∃ d, Forall (λ x, x == d)%Q time_diff) →
     statistics time_diff = Raise ZeroDivisionError)
  ∧ (2 ≤ length time_diff → long_block_deltas time_diff = 0 →
     statistics time_diff = Raise ZeroDivisionError).
Proof.
  split; [|split].
  - intros Hlen. unfold statistics, mean.
    destruct time_diff as [|d [|d' l]]; [done | | simpl in Hlen; lia].
    simpl. done.
  - intros Hlen [d Hall]. unfold statistics.
    destruct (mean_const d time_diff) as (c & -> & _);
      [by apply long_enough_nonempty | done |].
    simpl. unfold divide_by_stdev.
    destruct (variance_const d time_diff Hlen Hall) as (var & -> & Hvar).
    simpl. apply Qeq_bool_iff in Hvar. by rewrite Hvar.
  - intros Hlen Hcount. unfold statistics, mean.
    rewrite decide_False by lia. simpl.
    destruct (divide_by_stdev time_diff) as [[]|e] eqn:Hdiv.
    + simpl. unfold actual, py_truediv. rewrite Qlen_nonzero by by apply long_enough_nonempty.
      simpl. unfold long_block_deltas in Hcount.
      apply length_zero_iff_nil in Hcount. rewrite Hcount.
      replace (Qeq_bool (Qlen [] / Qlen time_diff) 0) with true; [done|].
      symmetry. apply Qeq_bool_iff. unfold Qlen at 1. simpl. unfold Qdiv. ring.
    + simpl. unfold divide_by_stdev, variance in Hdiv.
      rewrite decide_False in Hdiv by lia. unfold mean in Hdiv.
      rewrite decide_False in Hdiv by lia. simpl in Hdiv.
      destruct (Qeq_bool _ 0) in Hdiv; [|done]. by injection Hdiv as <-.
Qed.

(** ** Duplicated indexes *)

Lemma filter_decorated (k : Z) (l : list (Z * Block)) :
  Forall (λ kb, has_index kb.2 kb.1) l →
  filter (λ blk, has_index blk k) (l.*2) = (filter (λ y, y.1 = k) l).*2.
Proof.
  induction 1 as [|[k' blk] l Hk _ IH]; [done|].
  rewrite fmap_cons, !filter_cons, IH. simpl in *.
  destruct (decide (k' = k)) as [->|Hne].
  - by rewrite decide_True.
  - rewrite decide_False; [done|]. unfold has_index in *. congruence.
Qed.

Lemma sorted_blocks_stable (blocks sorted : list Block) (k : Z) :
  sorted_blocks blocks = Ok sorted →
  filter (λ blk, has_index blk k) sorted = filter (λ blk, has_index blk k) blocks.
Proof.
  unfold sorted_blocks. intros (decorated & Hdec & [= <-])%rbind_Ok.
  apply rmap_Ok in Hdec.
  assert (decorated.*2 = blocks ∧ Forall (λ kb, has_index kb.2 kb.1) decorated)
    as [Hsnd Hkeys].
  { clear k. induction Hdec as [|blk kb blocks decorated [<- Hk]%keyed_Ok _ [IH1 IH2]].
    - split; [done | constructor].
    - split; [by rewrite fmap_cons, IH1 | by constructor]. }
  rewrite filter_decorated by by rewrite sort_by_key_perm.
  by rewrite sort_by_key_stable, <- filter_decorated, Hsnd.
Qed.

Section Duplicates.

Variable net : Network.
Variable set_iter : gset Z → list Z.
Hypothesis set_iter_perm : ∀ s, set_iter s ≡ₚ elements s.

(** C10: records are never deduplicated.  A completed reconciler run
    leaves the stored blocks, duplicates included, in place and in order,
    followed by what it added.  The aggregator's sort rearranges the
    records without dropping any and keeps the records of one index in
    their stored order; the delta series has one entry less than there are
    records, and two neighbours of the sorted list that share an index
    contribute the difference of their timestamps, be it zero or
    negative. *)
Theorem no_deduplication (w : world) (blocks : list Block) :
  (∀ w', reconciler net set_iter w = (w', Ok tt) →
         ∃ added, stored w' = stored w ++ added)
  ∧ (Forall (λ blk, (∃ i, has_index blk i) ∧ (∃ t, has_time blk t)) blocks →
     ∃ sorted series,
       sorted_blocks blocks = Ok sorted
       ∧ sorted ≡ₚ blocks
       ∧ (∀ i, filter (λ blk, has_index blk i) sorted
               = filter (λ blk, has_index blk i) blocks)
       ∧ time_diff blocks = Ok series
       ∧ length series = length blocks - 1
       ∧ ∀ k earlier later i t_earlier t_later,
           sorted !! k = Some earlier → sorted !! S k = Some later →
           has_index earlier i → has_index later i →
           has_time earlier t_earlier → has_time later t_later →
           series !! k = Some (inject_Z (t_later - t_earlier) / 60)%Q).
Proof.
  split.
  - intros w' Hrun.
    destruct (reconciler_outcome net set_iter set_iter_perm w)
      as (w1 & r & Hrun1 & Hdone).
    rewrite Hrun in Hrun1. injection Hrun1 as <- <-.
    destruct Hdone
      as (pages & missing & founds & projected & Hfile & _ & _ & _ & Hfile').
    exists projected. unfold stored. rewrite Hfile, Hfile'. simpl.
    by rewrite app_nil_r.
  - intros Hall.
    destruct (time_diff_entries blocks Hall)
      as (sorted & series & Hsorted & Hperm & _ & Hseries & Hlen & Hentries).
    exists sorted, series. split; [done|]. split; [done|].
    split; [intros i; by apply sorted_blocks_stable|].
    split; [done|]. split; [done|]. eauto.
Qed.

End Duplicates.

(** * The properties on the sample data *)

Lemma elements_is_an_order : ∀ s : gset Z, elements s ≡ₚ elements s.
Proof. done. Defined.

(** The sample store has the indexes 0, 1, 3 and 5: 2 and 4 are missing. *)
Lemma missing_blocks_is_set_difference_witness :
  concat sample_pages ≠ []
  ∧ Forall (λ blk, ∃ i, has_index blk i) (concat sample_pages)
  ∧ missing_blocks (concat sample_pages) = Ok {[2%Z; 4%Z]}.
Proof.
  assert (concat sample_pages ≠ []) as Hne by done.
  assert (Forall (λ blk, ∃ i, has_index blk i) (concat sample_pages)) as Hall.
  { repeat constructor; eexists; reflexivity. }
  split; [done|]. split; [done|].
  destruct (missing_blocks_is_set_difference (concat sample_pages) Hne Hall)
    as (missing & max_index & -> & _ & _ & _ & Hexample).
  f_equal. apply Hexample. vm_compute. reflexivity.
Defined.


Lemma flaky_net_well_formed : well_formed_upstream flaky_net.
Proof.
  intros n i. unfold flaky_net. simpl. destruct (decide (n < 4)); simpl; [done|].
  intros _. do 2 eexists. split; [done|]. split; [reflexivity|].
  unfold core_fields.
  repeat constructor; intros k Hk;
    rewrite !elem_of_union, !elem_of_singleton in Hk;
    destruct Hk as [[[-> | ->] | ->] | ->]; by eexists.
Defined.

(** The reconciler on the sample store, with upstream flaky: the indexes 4
    and 2 are recovered, two records each. *)
Lemma reconciler_projects_and_rewrites_witness :
  (∀ s : gset Z, elements s ≡ₚ elements s)
  ∧ well_formed_upstream flaky_net
  ∧ (∃ w' blocks_to_add,
       reconciler flaky_net elements (fresh (Some sample_pages)) = (w', Ok tt)
       ∧ kept_blocks flaky_net (elements ({[2%Z; 4%Z]} : gset Z)) 0
           blocks_to_add (requests w')
       ∧ length (stored w') = 8).
Proof.
  split; [exact elements_is_an_order|]. split; [exact flaky_net_well_formed|].
  assert (missing_blocks (concat sample_pages) = Ok {[2%Z; 4%Z]}) as Hsample
    by (vm_compute; reflexivity).
  destruct (reconciler_projects_and_rewrites flaky_net elements elements_is_an_order
              (fresh (Some sample_pages))) as (Hdone & _ & Hruns).
  destruct (Hruns flaky_net_well_formed sample_pages {[2%Z; 4%Z]} eq_refl Hsample)
    as [w' Hrun].
  destruct (Hdone w' Hrun)
    as (pages & missing & blocks_to_add & projected & Hfile & Hmissing & Hkept & _).
  injection Hfile as <-. rewrite Hsample in Hmissing. injection Hmissing as <-.
  exists w', blocks_to_add. split; [done|]. split; [exact Hkept|].
  vm_compute in Hrun. injection Hrun as <-. reflexivity.
Defined.

(** The reconciler on a store without gaps. *)
Lemma reconciler_idempotent_witness :
  (∀ s : gset Z, elements s ≡ₚ elements s)
  ∧ missing_blocks (concat complete_pages) = Ok ∅
  ∧ ∃ w1 w2,
      reconciler flaky_net elements (fresh (Some complete_pages)) = (w1, Ok tt)
      ∧ stored w1 = concat complete_pages
      ∧ requests w1 = 0
      ∧ reconciler flaky_net elements w1 = (w2, Ok tt)
      ∧ file w2 = file w1.
Proof.
  assert (missing_blocks (concat complete_pages) = Ok ∅) as Hmissing
    by (vm_compute; reflexivity).
  split; [exact elements_is_an_order|]. split; [done|].
  destruct (reconciler_idempotent flaky_net elements elements_is_an_order
              (fresh (Some complete_pages)) complete_pages ∅ eq_refl Hmissing
              (or_introl eq_refl))
    as (w1 & w2 & Hrun1 & Hstored & _ & Hrequests & Hrun2 & Hfile & _).
  exists w1, w2. split; [done|]. split; [done|]. split; [by apply Hrequests|].
  split; done.
Defined.

(** A fetcher that finds upstream down leaves an empty file, whatever the
    file held. *)
Lemma fetcher_truncates_then_appends_witness :
  (∀ s : gset Z, elements s ≡ₚ elements s)
  ∧ fetcher down_net (start_time + 1) (fresh (Some sample_pages))
    = fetcher down_net (start_time + 1) (fresh None).
Proof.
  split; [exact elements_is_an_order|].
  destruct (fetcher_truncates_then_appends down_net elements elements_is_an_order
              (start_time + 1) (fresh None)) as [Hsame _].
  apply (Hsame (Some sample_pages)).
Defined.

(** C3, as stated, fails: a block of the store is gone after a fetcher run
    during which upstream was down. *)
Lemma fetcher_discards_previous_records :
  ¬ ∀ (net : Network) (end_time : Z) (w : world) (blk : Block),
      blk ∈ stored w → blk ∈ stored (fetcher net end_time w).1.
Proof.
  intros Hkept.
  specialize (Hkept down_net (start_time + 1)%Z (fresh (Some sample_pages))
                (sample_block 0 0)).
  replace (stored (fetcher down_net (start_time + 1) (fresh (Some sample_pages))).1)
    with (@nil Block) in Hkept by (vm_compute; reflexivity).
  eapply not_elem_of_nil, Hkept. by left.
Qed.

(** The series of the sample store. *)
Lemma time_diff_series_witness :
  Forall (λ blk, (∃ i, has_index blk i) ∧ (∃ t, has_time blk t)) (concat sample_pages)
  ∧ ∃ series, time_diff (concat sample_pages) = Ok series ∧ length series = 3.
Proof.
  assert (Forall (λ blk, (∃ i, has_index blk i) ∧ (∃ t, has_time blk t))
            (concat sample_pages)) as Hall.
  { repeat constructor; eexists; reflexivity. }
  split; [done|].
  destruct (time_diff_series (concat sample_pages) Hall)
    as (sorted & series & _ & _ & _ & Hseries & Hlen & _).
  exists series. split; [done|]. simpl in Hlen. lia.
Defined.

(** One delta in four reaches 120. *)
Lemma empirical_tail_probability_witness :
  [60; 60; 180; 60]%Q ≠ []
  ∧ actual [60; 60; 180; 60]%Q = Ok ((1 # 1) / (4 # 1))%Q.
Proof.
  assert ([60; 60; 180; 60]%Q ≠ []) as Hne by done.
  split; [done|].
  destruct (empirical_tail_probability [60; 60; 180; 60]%Q Hne) as (-> & _).
  reflexivity.
Defined.

(** Degenerate series. *)
Lemma degenerate_statistics_witness :
  statistics [] = Raise StatisticsError
  ∧ statistics [130]%Q = Raise StatisticsError
  ∧ statistics [7; 7; 7]%Q = Raise ZeroDivisionError
  ∧ statistics [9; 10; 119]%Q = Raise ZeroDivisionError.
Proof.
  split; [|split; [|split]].
  - destruct (degenerate_statistics []) as (Hshort & _ & _).
    apply Hshort. simpl. lia.
  - destruct (degenerate_statistics [130]%Q) as (Hshort & _ & _).
    apply Hshort. simpl. lia.
  - destruct (degenerate_statistics [7; 7; 7]%Q) as (_ & Hequal & _).
    apply Hequal; [simpl; lia|].
    exists 7%Q. repeat constructor; reflexivity.
  - destruct (degenerate_statistics [9; 10; 119]%Q) as (_ & _ & Hshort_gaps).
    apply Hshort_gaps; [simpl; lia | reflexivity].
Defined.

(** C2, as stated, fails: the division by zero is what the cell raises,
    on equal deltas, on a series without a long gap, and on a store of
    records mined at the same second. *)
Lemma statistics_divides_by_zero :
  statistics [1; 1]%Q = Raise ZeroDivisionError
  ∧ statistics [1; 2]%Q = Raise ZeroDivisionError
  ∧ (aggregator (fresh (Some simultaneous_pages))).2 = Raise ZeroDivisionError.
Proof. split; [|split]; vm_compute; reflexivity. Qed.

(** Two records with index 1: both are kept, in their stored order, and
    they contribute the negative delta between them. *)
Lemma no_deduplication_witness :
  (∀ s : gset Z, elements s ≡ₚ elements s)
  ∧ Forall (λ blk, (∃ i, has_index blk i) ∧ (∃ t, has_time blk t)) duplicate_blocks
  ∧ ∃ sorted series,
      sorted_blocks duplicate_blocks = Ok sorted
      ∧ filter (λ blk, has_index blk 1) sorted = [sample_block 1 700; sample_block 1 600]
      ∧ time_diff duplicate_blocks = Ok series
      ∧ length series = 3
      ∧ series !! 1 = Some (inject_Z (600 - 700) / 60)%Q.
Proof.
  assert (Forall (λ blk, (∃ i, has_index blk i) ∧ (∃ t, has_time blk t))
            duplicate_blocks) as Hall.
  { repeat constructor; eexists; reflexivity. }
  split; [exact elements_is_an_order|]. split; [done|].
  destruct (no_deduplication flaky_net elements elements_is_an_order
              (fresh None) duplicate_blocks) as [_ Hsort].
  destruct (Hsort Hall)
    as (sorted & series & Hsorted & _ & Hstable & Hseries & Hlen & Hentries).
  exists sorted, series. split; [done|]. split; [|split; [done|split; [done|]]].
  - rewrite Hstable. vm_compute. reflexivity.
  - vm_compute in Hsorted. injection Hsorted as <-.
    eapply (Hentries 1 _ _ 1%Z 700%Z 600%Z); reflexivity.
Defined.

(** * Further properties of the cells *)

(** ** The days visited by the fetcher *)



(** ** Requests, naps and pages of the fetcher *)

Section FetcherAccounting.

Variable net : Network.

Lemma fetch_day_accounted (tries : nat) (timestamp : Z) (w : world) :
  ∃ w' r,
    fetch_day net tries timestamp w = (w', r)
    ∧ requests w' ≤ requests w + tries
    ∧ match r with
      | Ok _ => accounted 0 w w'
      | Raise e => e = JSONDecodeError ∧ accounted 1 w w'
      end.
Proof.
  revert w. induction tries as [|tries IH]; intros w.
  - exists w, (Ok tt). split; [done|]. split; [lia|]. unfold accounted. lia.
  - destruct (decide (status_code (get_blocks net (requests w) timestamp) = 200%Z))
      as [Hok|Hfail].
    + rewrite fetch_day_succeeded by done. cbn zeta.
      destruct (json _) as [page|]; do 2 eexists; (split; [reflexivity|]).
      * split; [simpl; lia|]. unfold accounted, pages_of. simpl.
        rewrite length_app. simpl. lia.
      * split; [simpl; lia|]. split; [done|]. unfold accounted, pages_of. simpl. lia.
    + rewrite fetch_day_failed by done.
      destruct (IH (after_failures
                      [status_code (get_blocks net (requests w) timestamp)] w))
        as (w' & r & -> & Hreq & Hacc).
      exists w', r. split; [done|]. simpl in Hreq. split; [lia|].
      unfold accounted, pages_of in *. simpl in Hacc.
      destruct r as [[]|e]; [lia|]. destruct Hacc as [-> Hacc]. split; [done | lia].
Qed.

Lemma fetch_days_accounted (days : list Z) (w : world) :
  ∃ w' r,
    for_each days
      (λ timestamp, print (PrintInt timestamp) ;; fetch_day net 5 timestamp) w
    = (w', r)
    ∧ requests w' ≤ requests w + 5 * length days
    ∧ match r with
      | Ok _ => accounted 0 w w'
      | Raise e => e = JSONDecodeError ∧ accounted 1 w w'
      end.
Proof.
  revert w. induction days as [|day days IH]; intros w.
  - exists w, (Ok tt). split; [done|]. split; [lia|]. unfold accounted. lia.
  - cbn [for_each]. unfold bind at 1. unfold bind at 1, print at 1.
    match goal with
    | |- context [fetch_day net 5 day ?w0] =>
        destruct (fetch_day_accounted 5 day w0) as (w1 & r1 & -> & Hreq1 & Hacc1)
    end.
    unfold accounted, pages_of in *. cbn [file requests slept] in Hreq1, Hacc1.
    destruct r1 as [[]|e].
    + destruct (IH w1) as (w' & r & -> & Hreq & Hacc).
      exists w', r. split; [done|]. simpl. split; [lia|].
      destruct r as [[]|e]; [lia|]. destruct Hacc as [-> Hacc]. split; [done | lia].
    + exists w1, (Raise e). split; [done|]. simpl. split; [lia|].
      destruct Hacc1 as [-> Hacc1]. split; [done | lia].
Qed.

(** X2: whatever upstream answers, the fetcher makes at most five requests
    per day; when it completes, every request it made is matched by a nap
    or by a page of the file it leaves; the only exception that can stop it
    is an undecodable body of a successful answer, and then exactly one
    request is matched by neither. *)
Theorem fetcher_accounting (end_time : Z) (w : world) :
  ∃ w' r pages,
    fetcher net end_time w = (w', r)
    ∧ file w' = Some pages
    ∧ requests w'
      ≤ requests w + 5 * length (py_range_step start_time end_time one_day)
    ∧ match r with
      | Ok _ => requests w' + slept w = requests w + slept w' + length pages
      | Raise e =>
          e = JSONDecodeError
          ∧ requests w' + slept w = requests w + slept w' + length pages + 1
      end.
Proof.
  destruct (fetch_days_outcome net (py_range_step start_time end_time one_day)
              (World (Some []) (requests w) (slept w) (stdout w)) [] eq_refl)
    as (w' & r & pages & Hrun & Hfile & _ & _).
  destruct (fetch_days_accounted (py_range_step start_time end_time one_day)
              (World (Some []) (requests w) (slept w) (stdout w)))
    as (w2 & r2 & Hrun2 & Hreq & Hacc).
  rewrite Hrun in Hrun2. injection Hrun2 as <- <-.
  exists w', r, pages. split.
  { unfold fetcher. unfold bind at 1, open_wb. exact Hrun. }
  split; [done|]. simpl in Hreq. split; [done|].
  unfold accounted, pages_of in Hacc. rewrite Hfile in Hacc. simpl in Hacc.
  destruct r as [[]|e]; [lia|]. destruct Hacc as [-> Hacc]. split; [done | lia].
Qed.

Lemma fetch_days_reliable (days : list Z) (w : world) (pages : list (list Block)) :
  blocks_reliable net →
  file w = Some pages →
  ∃ w' more,
    for_each days
      (λ timestamp, print (PrintInt timestamp) ;; fetch_day net 5 timestamp) w
    = (w', Ok tt)
    ∧ file w' = Some (pages ++ more)
    ∧ requests w' = requests w + length days
    ∧ slept w' = slept w
    ∧ length more = length days
    ∧ ∀ k timestamp, days !! k = Some timestamp →
        json (get_blocks net (requests w + k) timestamp) = more !! k.
Proof.
  intros Hreliable. revert w pages.
  induction days as [|day days IH]; intros w pages Hfile.
  - exists w, []. rewrite app_nil_r. simpl.
    split; [done|]. split; [done|]. split; [lia|]. split; [done|]. split; done.
  - cbn [for_each]. unfold bind at 1. unfold bind at 1, print at 1.
    destruct (Hreliable (requests w) day) as [Hcode [page Hpage]].
    rewrite fetch_day_succeeded by done. cbn zeta. cbn [file requests slept stdout].
    rewrite Hpage. unfold pickle_dump. cbn [file requests slept stdout].
    rewrite Hfile. cbn [default].
    match goal with
    | |- context [for_each days _ ?w0] =>
        destruct (IH w0 (pages ++ [page]) eq_refl)
          as (w' & more & -> & Hfile' & Hreq & Hslept & Hlen & Hpages)
    end.
    cbn [file requests slept stdout] in *.
    exists w', (page :: more). split; [done|].
    split; [by rewrite Hfile', <- app_assoc|].
    split; [simpl; lia|]. split; [done|]. split; [simpl; lia|].
    intros [|k] timestamp Hk; simpl in *.
    + injection Hk as <-. by rewrite Nat.add_0_r.
    + rewrite <- (Hpages k timestamp Hk). do 3 f_equal. lia.
Qed.

(** X3: when the blocks endpoint answers every request with a success and
    a decodable page, the fetcher completes with one request per day and no
    nap, and the file it leaves holds, in the order of the days, exactly the
    pages that were answered. *)
Theorem fetcher_reliable_upstream (end_time : Z) (w : world) :
  blocks_reliable net →
  ∃ w' pages,
    fetcher net end_time w = (w', Ok tt)
    ∧ file w' = Some pages
    ∧ requests w'
      = requests w + length (py_range_step start_time end_time one_day)
    ∧ slept w' = slept w
    ∧ length pages = length (py_range_step start_time end_time one_day)
    ∧ ∀ k timestamp,
        py_range_step start_time end_time one_day !! k = Some timestamp →
        json (get_blocks net (requests w + k) timestamp) = pages !! k.
Proof.
  intros Hreliable.
  destruct (fetch_days_reliable (py_range_step start_time end_time one_day)
              (World (Some []) (requests w) (slept w) (stdout w)) [] Hreliable eq_refl)
    as (w' & more & Hrun & Hfile & Hreq & Hslept & Hlen & Hpages).
  exists w', more. split.
  { unfold fetcher. unfold bind at 1, open_wb. exact Hrun. }
  done.
Qed.

End FetcherAccounting.

(** ** Projection *)

Lemma core_fields_cases (k : string) :
  k ∈ core_fields ↔ k = "hash" ∨ k = "height" ∨ k = "time" ∨ k = "block_index".
Proof.
  unfold core_fields. rewrite !elem_of_union, !elem_of_singleton. tauto.
Qed.

(** X4: projecting succeeds exactly on the records that have the four
    core fields; the result is contained in the record, and projecting it
    again changes nothing. *)
Theorem project_idempotent (record : Block) :
  (core_fields ⊆ dom record ↔ ∃ projected, project record = Ok projected)
  ∧ ∀ projected,
      project record = Ok projected →
      projected ⊆ record ∧ project projected = Ok projected.
Proof.
  split.
  - split.
    + intros Hsub. apply project_total. intros k Hk. by apply elem_of_dom, Hsub.
    + intros [projected [Hdom Hsame]%project_Ok]. intros k Hk.
      apply elem_of_dom. rewrite <- (Hsame k Hk). apply elem_of_dom. by rewrite Hdom.
  - intros projected [Hdom Hsame]%project_Ok. split.
    + apply map_subseteq_spec. intros k v Hk. rewrite <- (Hsame k); [done|].
      rewrite <- Hdom. apply elem_of_dom. eauto.
    + destruct (project_total projected) as [again Hagain].
      { intros k Hk. apply elem_of_dom. by rewrite Hdom. }
      rewrite Hagain. f_equal. apply project_Ok in Hagain as [Hdom' Hsame'].
      apply map_eq. intros k. destruct (decide (k ∈ core_fields)) as [Hk|Hk].
      * by apply Hsame'.
      * rewrite (proj1 (not_elem_of_dom again k)) by by rewrite Hdom'.
        by rewrite (proj1 (not_elem_of_dom projected k)) by by rewrite Hdom.
Qed.

(** X5: when projecting fails, it fails with a [KeyError] that names a core
    field absent from the record, and every core field that the projection
    reads before that one is present. *)
Theorem project_key_error (record : Block) (e : exn) :
  project record = Raise e →
  ∃ k, e = KeyError k ∧ k ∈ core_fields ∧ record !! k = None
       ∧ (k = "height" → is_Some (record !! "hash"))
       ∧ (k = "time" → is_Some (record !! "hash") ∧ is_Some (record !! "height"))
       ∧ (k = "block_index" →
          is_Some (record !! "hash") ∧ is_Some (record !! "height")
          ∧ is_Some (record !! "time")).
Proof.
  unfold project, getitem.
  destruct (record !! "hash") as [h|] eqn:Hh; simpl.
  - destruct (record !! "height") as [g|] eqn:Hg; simpl.
    + destruct (record !! "time") as [t|] eqn:Ht; simpl.
      * destruct (record !! "block_index") as [i|] eqn:Hi; simpl; [done|].
        intros [= <-]. exists "block_index". rewrite core_fields_cases.
        repeat split; eauto.
      * intros [= <-]. exists "time". rewrite core_fields_cases.
        split; [done|]. split; [eauto|]. split; [done|].
        split; [done|]. split; [eauto | done].
    + intros [= <-]. exists "height". rewrite core_fields_cases.
      split; [done|]. split; [eauto|]. split; [done|].
      split; [eauto|]. split; done.
  - intros [= <-]. exists "hash". rewrite core_fields_cases.
    split; [done|]. split; [eauto|]. split; [done|]. split; [done|]. split; done.
Qed.

(** ** The reconciler before it fetches *)

Lemma block_indexes_key_error (blocks : list Block) :
  Forall (λ blk, blk !! "block_index" = None ∨ ∃ i, has_index blk i) blocks →
  Exists (λ blk, blk !! "block_index" = None) blocks →
  block_indexes blocks = Raise (KeyError "block_index").
Proof.
  unfold block_indexes. intros Hall Hex.
  enough (rmap (λ b, try v := getitem b "block_index" in as_int v) blocks
          = Raise (KeyError "block_index")) as -> by done.
  induction Hall as [|blk blocks Hblk _ IH]; [by apply Exists_nil in Hex|].
  simpl. destruct Hblk as [Hnone | [i Hi]].
  - unfold getitem. by rewrite Hnone.
  - apply index_lookup_Ok in Hi. rewrite Hi. simpl.
    apply Exists_cons in Hex as [Hnone | Hex].
    + apply index_lookup_Ok in Hi. unfold has_index in Hi. congruence.
    + by rewrite IH.
Qed.

Lemma missing_blocks_facts (blocks : list Block) (missing : gset Z) :
  missing_blocks blocks = Ok missing →
  ∃ observed max_index,
    block_indexes blocks = Ok observed
    ∧ py_max observed = Ok max_index
    ∧ max_index ∈ observed
    ∧ (∀ i, i ∈ observed → (i ≤ max_index)%Z)
    ∧ missing = list_to_set (py_range 0 (max_index + 1)) ∖ observed.
Proof.
  unfold missing_blocks. intros (observed & Hobs & Hrest)%rbind_Ok.
  apply rbind_Ok in Hrest as (m & Hm & [= <-]).
  exists observed, m. split; [done|]. split; [done|].
  destruct (decide (observed = ∅)) as [->|Hne]; [done|].
  destruct (py_max_spec observed Hne) as (m' & Hm' & Hin & Hle).
  rewrite Hm in Hm'. injection Hm' as <-. done.
Qed.

Section ReconcilerStart.

Variable net : Network.
Variable set_iter : gset Z → list Z.

Lemma reconciler_raises_early (w : world) (pages : list (list Block)) (e : exn) :
  file w = Some pages →
  missing_blocks (concat pages) = Raise e →
  reconciler net set_iter w = (w, Raise e).
Proof.
  intros Hfile Hmissing. unfold reconciler. unfold bind at 1, load_blocks.
  rewrite Hfile, foldl_app_concat. cbn [app]. unfold bind at 1, lift.
  by rewrite Hmissing.
Qed.

(** X6: the reconciler stops before it prints, requests or writes anything
    when the file does not exist ([FileNotFoundError]), when the file holds
    no block ([ValueError], from [max] of an empty set), and when a block
    without a ['block_index'] is met among blocks with integer indexes
    ([KeyError]). *)
Theorem reconciler_fails_before_effects (w : world) :
  (file w = None → reconciler net set_iter w = (w, Raise FileNotFoundError))
  ∧ (∀ pages, file w = Some pages → concat pages = [] →
       reconciler net set_iter w = (w, Raise ValueError))
  ∧ (∀ pages, file w = Some pages →
       Forall (λ blk, blk !! "block_index" = None ∨ ∃ i, has_index blk i)
         (concat pages) →
       Exists (λ blk, blk !! "block_index" = None) (concat pages) →
       reconciler net set_iter w = (w, Raise (KeyError "block_index"))).
Proof.
  split; [|split].
  - intros Hfile. unfold reconciler. unfold bind at 1, load_blocks. by rewrite Hfile.
  - intros pages Hfile Hempty. apply (reconciler_raises_early w pages); [done|].
    by rewrite Hempty.
  - intros pages Hfile Hall Hex. apply (reconciler_raises_early w pages); [done|].
    unfold missing_blocks. by rewrite block_indexes_key_error.
Qed.

End ReconcilerStart.

(** X7: the missing indexes are never observed ones and lie between 0 and
    the largest observed index.  When no observed index is negative, the
    missing and the observed indexes together count [max_index + 1], and
    nothing is missing exactly when the observed indexes are all of
    [0 .. max_index]. *)
Theorem missing_blocks_counts (blocks : list Block) (missing : gset Z) :
  missing_blocks blocks = Ok missing →
  ∃ observed max_index,
    block_indexes blocks = Ok observed
    ∧ py_max observed = Ok max_index
    ∧ missing ## observed
    ∧ (∀ i, i ∈ missing → (0 ≤ i < max_index)%Z)
    ∧ ((∀ i, i ∈ observed → (0 ≤ i)%Z) →
       (Z.of_nat (size missing) + Z.of_nat (size observed) = max_index + 1)%Z
       ∧ (missing = ∅ ↔ observed = list_to_set (py_range 0 (max_index + 1)))).
Proof.
  intros (observed & m & Hobs & Hm & Hin & Hle & ->)%missing_blocks_facts.
  exists observed, m. split; [done|]. split; [done|]. split.
  { apply elem_of_disjoint. by intros i [_ Hni]%elem_of_difference Hi. }
  split.
  - intros i [Hi Hni]%elem_of_difference.
    apply elem_of_list_to_set, elem_of_py_range in Hi.
    assert (i ≠ m) by (by intros ->). lia.
  - intros Hnonneg.
    assert (observed ⊆ list_to_set (py_range 0 (m + 1))) as Hsub.
    { intros i Hi. apply elem_of_list_to_set, elem_of_py_range.
      specialize (Hnonneg i Hi). specialize (Hle i Hi). lia. }
    split.
    + rewrite size_difference by done.
      rewrite size_list_to_set by apply NoDup_seqZ.
      unfold py_range. rewrite length_seqZ.
      pose proof (subseteq_size _ _ Hsub) as Hsize.
      rewrite size_list_to_set in Hsize by apply NoDup_seqZ.
      unfold py_range in Hsize. rewrite length_seqZ in Hsize.
      specialize (Hnonneg m Hin). lia.
    + split; [|intros ->; apply difference_diag_L]. intros Hempty. apply set_eq. intros i. split; [apply Hsub|].
      intros Hi. destruct (decide (i ∈ observed)) as [|Hni]; [done|].
      exfalso. apply (not_elem_of_empty (C:=gset Z) i). rewrite <- Hempty.
      by apply elem_of_difference.
Qed.

(** ** Requests of the reconciler, and what it achieves *)

Section ReconcilerRuns.

Variable net : Network.
Variable set_iter : gset Z → list Z.
Hypothesis set_iter_perm : ∀ s, set_iter s ≡ₚ elements s.

Lemma fetch_block_accounted (tries : nat) (block : Z) (acc : list Block) (w : world) :
  ∃ w' r,
    fetch_block net tries block acc w = (w', r)
    ∧ requests w' ≤ requests w + tries
    ∧ slept w ≤ slept w'
    ∧ requests w + slept w' ≤ requests w' + slept w
    ∧ requests w' + slept w ≤ requests w + slept w' + 1.
Proof.
  revert w. induction tries as [|tries IH]; intros w.
  - exists w, (Ok acc). split; [done|]. lia.
  - destruct (decide (status_code (get_block_height net (requests w) block) = 200%Z))
      as [Hok|Hfail].
    + rewrite fetch_block_succeeded by done. cbn zeta.
      destruct (json _) as [body|]; [destruct (body !! "blocks")|];
        do 2 eexists; (split; [reflexivity|]); simpl; lia.
    + rewrite fetch_block_failed by done.
      destruct (IH (after_failures
                      [status_code (get_block_height net (requests w) block)] w))
        as (w' & r & -> & Hreq & Hnaps & Hlow & Hhigh).
      exists w', r. split; [done|]. simpl in *. lia.
Qed.

Lemma fetch_blocks_accounted (l : list Z) (acc : list Block) (w : world) :
  ∃ w' r,
    for_acc l (fetch_block net 5) acc w = (w', r)
    ∧ requests w' ≤ requests w + 5 * length l
    ∧ slept w ≤ slept w'
    ∧ requests w + slept w' ≤ requests w' + slept w
    ∧ requests w' + slept w ≤ requests w + slept w' + length l.
Proof.
  revert acc w. induction l as [|i l IH]; intros acc w.
  - exists w, (Ok acc). split; [done|]. simpl. lia.
  - cbn [for_acc]. unfold bind at 1.
    destruct (fetch_block_accounted 5 i acc w)
      as (w1 & r1 & -> & Hreq1 & Hnaps1 & Hlow1 & Hhigh1).
    destruct r1 as [acc1|e].
    + destruct (IH acc1 w1) as (w' & r & -> & Hreq & Hnaps & Hlow & Hhigh).
      exists w', r. split; [done|]. simpl. lia.
    + exists w1, (Raise e). split; [done|]. simpl. lia.
Qed.

Lemma length_set_iter (s : gset Z) : length (set_iter s) = size s.
Proof. by rewrite (set_iter_perm s). Qed.

(** X8: a reconciler run makes at most five requests per missing index;
    it naps once after each failed request, so that the requests without a
    nap, the successful ones, are at most one per missing index. *)
Theorem reconciler_request_bound (w : world) (pages : list (list Block))
    (missing : gset Z) :
  file w = Some pages →
  missing_blocks (concat pages) = Ok missing →
  ∃ w' r,
    reconciler net set_iter w = (w', r)
    ∧ requests w ≤ requests w' ≤ requests w + 5 * size missing
    ∧ slept w ≤ slept w'
    ∧ requests w + slept w' ≤ requests w' + slept w
    ∧ requests w' + slept w ≤ requests w + slept w' + size missing.
Proof.
  intros Hfile Hmissing.
  rewrite (reconciler_unfold net set_iter w pages missing) by done.
  destruct (fetch_blocks_accounted (set_iter missing) []
              (announced (concat pages) missing w))
    as (w1 & r1 & -> & Hreq & Hnaps & Hlow & Hhigh).
  rewrite length_set_iter in Hreq, Hhigh. simpl in Hreq, Hnaps, Hlow, Hhigh.
  destruct r1 as [blocks_to_add|e].
  - destruct (rmap project blocks_to_add); do 2 eexists;
      (split; [reflexivity|]); simpl; lia.
  - do 2 eexists. split; [reflexivity|]. lia.
Qed.





End ReconcilerRuns.

Lemma statistics_too_short (time_diff : list Q) :
  length time_diff ≤ 1 → statistics time_diff = Raise StatisticsError.
Proof.
  intros Hlen. unfold statistics, mean.
  destruct time_diff as [|d [|d' l]]; [done | | simpl in Hlen; lia].
  simpl. done.
Qed.

(** ** What the aggregator reads, and how it fails *)

Lemma rmap_raises {A B : Type} (f : A → result B) (l : list A) (e : exn) :
  Forall (λ x, f x = Raise e ∨ ∃ y, f x = Ok y) l →
  Exists (λ x, f x = Raise e) l →
  rmap f l = Raise e.
Proof.
  intros Hall Hex. induction Hall as [|x l Hx _ IH]; [by apply Exists_nil in Hex|].
  simpl. destruct Hx as [-> | [y Hy]]; [done|]. rewrite Hy. simpl.
  apply Exists_cons in Hex as [Hx | Hex]; [congruence|]. by rewrite IH.
Qed.

Lemma aggregator_reads (w : world) (pages : list (list Block)) :
  file w = Some pages →
  aggregator w = (w, try series := time_diff (concat pages) in statistics series).
Proof.
  intros Hfile. unfold aggregator. unfold bind at 1, load_blocks.
  rewrite Hfile, foldl_app_concat. cbn [app]. unfold bind, lift.
  by destruct (time_diff (concat pages)).
Qed.

(** X10: the aggregator changes nothing: no file write, no request, no
    nap, no line printed.  Without a file it raises [FileNotFoundError].
    Its result depends on the stored blocks only, not on how they are
    split in pages.  On a store of at most two blocks with integer indexes
    and timestamps it raises [StatisticsError], since the standard deviation
    needs two deltas. *)
Theorem aggregator_reads_only (w : world) :
  (aggregator w).1 = w
  ∧ (file w = None → (aggregator w).2 = Raise FileNotFoundError)
  ∧ (∀ w2, is_Some (file w) → is_Some (file w2) → stored w = stored w2 →
           (aggregator w).2 = (aggregator w2).2)
  ∧ (is_Some (file w) →
     Forall (λ blk, (∃ i, has_index blk i) ∧ (∃ t, has_time blk t)) (stored w) →
     length (stored w) ≤ 2 →
     (aggregator w).2 = Raise StatisticsError).
Proof.
  split; [|split; [|split]].
  - unfold aggregator. unfold bind at 1, load_blocks.
    destruct (file w) as [pages|]; [|done].
    unfold bind, lift. by destruct (time_diff _).
  - intros Hfile. unfold aggregator. unfold bind at 1, load_blocks. by rewrite Hfile.
  - intros w2 [pages Hfile] [pages2 Hfile2]. unfold stored.
    rewrite (aggregator_reads w pages), (aggregator_reads w2 pages2) by done.
    rewrite Hfile, Hfile2. simpl. by intros ->.
  - intros [pages Hfile]. unfold stored. rewrite Hfile. simpl.
    intros Hall Hlen. rewrite (aggregator_reads w pages) by done. simpl.
    destruct (time_diff_entries (concat pages) Hall)
      as (sorted & series & _ & _ & _ & -> & Hseries & _).
    simpl. apply statistics_too_short. lia.
Qed.

(** X11: the series cell reports a block without ['block_index'] (among
    blocks with integer indexes) as [KeyError] for that key; when every
    block has an integer index, a block without ['time'] is reported as
    [KeyError] for ['time'], wherever it is stored. *)
Theorem time_diff_key_errors (blocks : list Block) :
  (Forall (λ blk, blk !! "block_index" = None ∨ ∃ i, has_index blk i) blocks →
   Exists (λ blk, blk !! "block_index" = None) blocks →
   time_diff blocks = Raise (KeyError "block_index"))
  ∧ (Forall (λ blk, ∃ i, has_index blk i) blocks →
     Exists (λ blk, blk !! "time" = None) blocks →
     time_diff blocks = Raise (KeyError "time")).
Proof.
  split.
  - intros Hall Hex. unfold time_diff, sorted_blocks.
    rewrite (rmap_raises keyed blocks (KeyError "block_index")); [done| |].
    + eapply Forall_impl; [done|]. intros blk [Hnone | [i Hi]].
      * left. unfold keyed, getitem. by rewrite Hnone.
      * right. exists (i, blk). by apply keyed_Ok.
    + eapply Exists_impl; [done|]. intros blk Hnone. simpl in Hnone.
      unfold keyed, getitem. by rewrite Hnone.
  - intros Hall Hex.
    destruct (sorted_blocks_spec blocks Hall) as (sorted & Hsorted & Hperm & _).
    unfold time_diff. rewrite Hsorted. simpl. unfold block_times.
    rewrite (rmap_raises (λ blk, getitem blk "time") sorted (KeyError "time"));
      [done| |].
    + apply Forall_forall. intros blk _. unfold getitem.
      destruct (blk !! "time"); [right; eauto | by left].
    + rewrite Hperm. eapply Exists_impl; [done|]. intros blk Hnone. simpl in Hnone.
      unfold getitem. by rewrite Hnone.
Qed.

(** ** The series does not depend on the order of storage *)

Lemma decorated_key_of (blocks : list Block) :
  Forall (λ blk, ∃ i, has_index blk i) blocks →
  rmap keyed blocks = Ok ((λ blk, (key_of blk, blk)) <$> blocks).
Proof.
  intros Hall. apply rmap_Ok, Forall2_fmap_r, Forall_Forall2_diag.
  eapply Forall_impl; [done|]. intros blk [i Hi]. apply keyed_Ok. simpl.
  split; [done|]. unfold key_of. unfold has_index in *. by rewrite Hi.
Qed.

(** X12: when all stored records with the same index are the same record,
    the time-delta series is the same for every order in which the
    records are stored. *)
Theorem time_diff_order_irrelevant (blocks blocks' : list Block) :
  blocks ≡ₚ blocks' →
  Forall (λ blk, ∃ i, has_index blk i) blocks →
  (∀ b1 b2 i, b1 ∈ blocks → b2 ∈ blocks →
              has_index b1 i → has_index b2 i → b1 = b2) →
  sorted_blocks blocks = sorted_blocks blocks'
  ∧ time_diff blocks = time_diff blocks'.
Proof.
  intros Hperm Hall Hunique.
  assert (Forall (λ blk, ∃ i, has_index blk i) blocks') as Hall'
    by by rewrite <- Hperm.
  assert (sorted_blocks blocks = sorted_blocks blocks') as Hsame.
  { unfold sorted_blocks. rewrite !decorated_key_of by done. simpl. do 2 f_equal.
    apply (StronglySorted_unique_strong (λ x y : Z * Block, (x.1 ≤ y.1)%Z)).
    - intros [k1 b1] [k2 b2] Hin1 Hin2 Hle1 Hle2. simpl in *.
      rewrite sort_by_key_perm in Hin1, Hin2.
      apply list_elem_of_fmap in Hin1 as (b1' & [= -> ->] & Hb1).
      apply list_elem_of_fmap in Hin2 as (b2' & [= -> ->] & Hb2).
      rewrite <- Hperm in Hb2.
      rewrite Forall_forall in Hall.
      destruct (Hall _ Hb1) as [i1 Hi1]. destruct (Hall _ Hb2) as [i2 Hi2].
      assert (key_of b1' = i1) as Hk1
        by (unfold key_of; unfold has_index in Hi1; by rewrite Hi1).
      assert (key_of b2' = i2) as Hk2
        by (unfold key_of; unfold has_index in Hi2; by rewrite Hi2).
      assert (i1 = i2) as -> by lia.
      by rewrite (Hunique b1' b2' i2 Hb1 Hb2 Hi1 Hi2).
    - apply sort_by_key_ascending.
    - apply sort_by_key_ascending.
    - by rewrite !sort_by_key_perm, Hperm. }
  split; [done|]. unfold time_diff. by rewrite Hsame.
Qed.

(** ** The deltas add up *)

Lemma lookup_deltas (previous : Z) (times : list Z) (k : nat) (earlier later : Z) :
  (previous :: times) !! k = Some earlier →
  (previous :: times) !! S k = Some later →
  deltas previous times !! k = Some (inject_Z (later - earlier) / 60)%Q.
Proof.
  revert previous k. induction times as [|t times IH]; intros previous k; [done|].
  destruct k as [|k]; simpl.
  - by intros [= ->] [= ->].
  - intros Hearlier Hlater. by apply IH.
Qed.

Lemma length_deltas (previous : Z) (times : list Z) :
  length (deltas previous times) = length times.
Proof. revert previous. induction times as [|t times IH]; intros p; simpl; by f_equal. Qed.

Lemma time_diff_of_deltas (previous : Z) (times : list Z) :
  time_diff_of (PInt <$> previous :: times) = Ok (deltas previous times).
Proof.
  destruct (time_diff_of_ints (previous :: times)) as (series & -> & Hlen & Hentries).
  f_equal. apply list_eq_same_length with (length times).
  - apply length_deltas.
  - simpl in Hlen. lia.
  - intros k x y Hk Hx Hy.
    destruct (lookup_lt_is_Some_2 (previous :: times) k) as [earlier Hearlier];
      [simpl; lia|].
    destruct (lookup_lt_is_Some_2 (previous :: times) (S k)) as [later Hlater];
      [simpl; lia|].
    rewrite (Hentries k earlier later Hearlier Hlater) in Hx.
    rewrite (lookup_deltas previous times k earlier later Hearlier Hlater) in Hy.
    congruence.
Qed.

Lemma Qsum_deltas (previous : Z) (times : list Z) :
  (Qsum (deltas previous times)
   == inject_Z (List.last times previous - previous) / 60)%Q.
Proof.
  revert previous. induction times as [|t times IH]; intros previous.
  - simpl. rewrite Z.sub_diag. reflexivity.
  - change (Qsum (deltas previous (t :: times)))
      with (inject_Z (t - previous) / 60 + Qsum (deltas t times))%Q.
    rewrite IH.
    replace (List.last (t :: times) previous) with (List.last times t)
      by (clear; revert t; induction times as [|u times IH]; intros t;
          [done | destruct times; [done | apply IH]]).
    unfold Zminus. rewrite !inject_Z_plus, !inject_Z_opp. field.
Qed.

Lemma lookup_last_default (previous : Z) (times : list Z) :
  (previous :: times) !! length times = Some (List.last times previous).
Proof.
  revert previous. induction times as [|t times IH]; intros previous; [done|].
  simpl length. rewrite lookup_cons. rewrite IH. f_equal.
  clear. revert t. induction times as [|u times IH]; intros t; [done|].
  destruct times; [done | apply IH].
Qed.

(** X13: for records with integer indexes and timestamps, the deltas add up
    to the minutes between the first and the last record of the sorted list;
    their mean is that span divided by the number of deltas. *)
Theorem time_diff_telescopes (blocks : list Block) :
  Forall (λ blk, (∃ i, has_index blk i) ∧ (∃ t, has_time blk t)) blocks →
  ∃ sorted series,
    sorted_blocks blocks = Ok sorted
    ∧ time_diff blocks = Ok series
    ∧ ∀ first final t_first t_final,
        head sorted = Some first → last sorted = Some final →
        has_time first t_first → has_time final t_final →
        (Qsum series == inject_Z (t_final - t_first) / 60)%Q
        ∧ ∀ c, mean series = Ok c →
               (c == inject_Z (t_final - t_first) / 60 / Qlen series)%Q.
Proof.
  intros Hall.
  destruct (sorted_blocks_spec blocks) as (sorted & Hsorted & Hperm & _).
  { eapply Forall_impl; [done|]. by intros blk [? _]. }
  destruct (block_times_spec sorted) as (times & Htimes & Hhas).
  { rewrite Hperm. eapply Forall_impl; [done|]. by intros blk [_ ?]. }
  destruct times as [|t0 times].
  { apply Forall2_nil_inv_r in Hhas as ->. exists [], [].
    split; [done|]. split; [|done].
    unfold time_diff. rewrite Hsorted. reflexivity. }
  exists sorted, (deltas t0 times). split; [done|]. split.
  { unfold time_diff. rewrite Hsorted. simpl. rewrite Htimes. simpl.
    apply time_diff_of_deltas. }
  intros first final t_first t_final Hfirst Hfinal Htf Htl.
  assert (t_first = t0) as ->.
  { rewrite head_lookup in Hfirst.
    destruct (Forall2_lookup_l _ _ _ _ _ Hhas Hfirst) as (t & [= <-] & Ht).
    unfold has_time in *. congruence. }
  assert (t_final = List.last times t0) as ->.
  { rewrite last_lookup in Hfinal.
    destruct (Forall2_lookup_l _ _ _ _ _ Hhas Hfinal) as (t & Hlook & Ht).
    rewrite (Forall2_length _ _ _ Hhas) in Hlook. simpl in Hlook.
    rewrite lookup_last_default in Hlook. injection Hlook as <-.
    unfold has_time in *. congruence. }
  split; [apply Qsum_deltas|].
  intros c. unfold mean. case_decide; [done|]. intros [= <-].
  by rewrite Qsum_deltas.
Qed.

(** ** When the statistics cell returns *)

Lemma Qsum_nonneg (l : list Q) : Forall (λ x, 0 <= x)%Q l → (0 <= Qsum l)%Q.
Proof.
  induction 1 as [|x l Hx _ IH]; [done|].
  unfold Qsum in *. simpl. exact (Qplus_le_compat 0 x 0 _ Hx IH).
Qed.

Lemma Qsum_shift (c : Q) (l : list Q) :
  (Qsum ((λ x, x - c) <$> l) == Qsum l - Qlen l * c)%Q.
Proof.
  induction l as [|x l IH].
  - unfold Qlen. simpl. ring.
  - unfold Qsum, Qlen in *. simpl foldr. rewrite IH.
    simpl length. rewrite Nat2Z.inj_succ, <- Z.add_1_r, inject_Z_plus. ring.
Qed.

Lemma Qsquare_nonneg (y : Q) : (0 <= y * y)%Q.
Proof. unfold Qle, Qmult. simpl. nia. Qed.

Lemma Qsum_squares_zero (c : Q) (l : list Q) :
  (Qsum ((λ x, (x - c) * (x - c)) <$> l) == 0)%Q → Forall (λ x, x == c)%Q l.
Proof.
  induction l as [|x l IH]; [constructor|].
  unfold Qsum in *. rewrite fmap_cons. cbn [foldr]. intros Hsum.
  pose proof (Qsquare_nonneg (x - c)) as Hx_sq.
  assert (0 <= foldr Qplus 0 ((λ x, (x - c) * (x - c)) <$> l))%Q as Hrest.
  { apply Qsum_nonneg, Forall_fmap, Forall_forall. intros y _. apply Qsquare_nonneg. }
  assert ((x - c) * (x - c) == 0)%Q as Hx0.
  { apply Qle_antisym; [|done]. rewrite <- Hsum.
    rewrite <- (Qplus_0_r ((x - c) * (x - c))) at 1.
    apply Qplus_le_compat; [apply Qle_refl | done]. }
  constructor.
  - apply Qmult_integral in Hx0.
    assert (x - c == 0)%Q as Hd by tauto.
    rewrite <- (Qplus_0_l c). rewrite <- Hd. ring.
  - apply IH. rewrite Hx0 in Hsum. by rewrite Qplus_0_l in Hsum.
Qed.

Lemma Qlen_minus_one {A : Type} (l : list A) : 2 ≤ length l → ¬ (Qlen l - 1 == 0)%Q.
Proof.
  intros Hlen Heq.
  unfold Qlen, Qeq, Qminus, Qplus, Qopp, inject_Z in Heq. simpl in Heq. lia.
Qed.

Lemma variance_zero_inv (data : list Q) (var : Q) :
  variance data = Ok var → (var == 0)%Q → ∃ d, Forall (λ x, x == d)%Q data.
Proof.
  unfold variance. case_decide as Hlen; [done|].
  unfold mean. rewrite decide_False by lia. simpl.
  set (c := (Qsum data / Qlen data)%Q). intros [= <-] Hvar.
  exists c. apply Qsum_squares_zero.
  assert (¬ (Qlen data == 0)%Q) as Hn by (apply Qlen_positive; intros ->; simpl in *; lia).
  assert (¬ (Qlen data - 1 == 0)%Q) as Hn1 by (apply Qlen_minus_one; lia).
  assert (Qsum ((λ x, x - c) <$> data) == 0)%Q as Htotal2.
  { rewrite Qsum_shift. unfold c. field. done. }
  rewrite Htotal2 in Hvar.
  set (total := Qsum ((λ x, (x - c) * (x - c))%Q <$> data)) in *.
  assert (total == (total - 0 * 0 / Qlen data) / (Qlen data - 1)
                   * (Qlen data - 1))%Q as Htotal by (field; done).
  rewrite Htotal, Hvar. ring.
Qed.

(** X14: the statistics cell returns a summary exactly for the series of
    at least two deltas that are not all equal and of which at least one
    reaches 120; the average it reports is then the sum of the deltas
    divided by their number. *)
Theorem statistics_succeeds_iff (time_diff : list Q) :
  ((∃ s, statistics time_diff = Ok s)
   ↔ 2 ≤ length time_diff
     ∧ ¬ (∃ d, Forall (λ x, x == d)%Q time_diff)
     ∧ 0 < long_block_deltas time_diff)
  ∧ ∀ s, statistics time_diff = Ok s →
         summary_avg s = (Qsum time_diff / Qlen time_diff)%Q.
Proof.
  split.
  - split.
    + intros [s Hs].
      destruct (decide (length time_diff ≤ 1)) as [Hshort|Hlong].
      { by rewrite statistics_too_short in Hs. }
      split; [lia|].
      unfold statistics, mean in Hs. rewrite decide_False in Hs by lia. simpl in Hs.
      unfold divide_by_stdev in Hs.
      destruct (variance time_diff) as [var|] eqn:Hvar; [|done]. simpl in Hs.
      destruct (Qeq_bool var 0) eqn:Hzero; [done|]. simpl in Hs.
      split.
      * intros [d Hd]. destruct (variance_const d time_diff) as (var' & Hvar' & Hv0);
          [lia | done |].
        rewrite Hvar in Hvar'. injection Hvar' as <-.
        apply Qeq_bool_iff in Hv0. congruence.
      * unfold actual, py_truediv in Hs.
        rewrite Qlen_nonzero in Hs by (intros ->; simpl in *; lia). simpl in Hs.
        destruct (Qeq_bool (Qlen (long_blocks time_diff) / Qlen time_diff) 0)
          eqn:Hratio; [done|].
        unfold long_block_deltas.
        destruct (long_blocks time_diff) as [|d ds] eqn:Hgaps; [|simpl; lia].
        exfalso.
        assert (Qeq_bool (Qlen (@nil Q) / Qlen time_diff) 0 = true) as Hnil
          by (apply Qeq_bool_iff; unfold Qlen at 1; simpl; unfold Qdiv; ring).
        congruence.
    + intros (Hlen & Hvaries & Hlong).
      unfold statistics, mean. rewrite decide_False by lia. simpl.
      unfold divide_by_stdev.
      destruct (variance time_diff) as [var|e] eqn:Hvar.
      2: { unfold variance in Hvar. rewrite decide_False in Hvar by lia.
           unfold mean in Hvar. by rewrite decide_False in Hvar by lia. }
      simpl. destruct (Qeq_bool var 0) eqn:Hzero.
      { exfalso. apply Hvaries. apply (variance_zero_inv time_diff var Hvar).
        by apply Qeq_bool_iff. }
      simpl. unfold actual, py_truediv.
      rewrite Qlen_nonzero by (intros ->; simpl in *; lia). simpl.
      destruct (Qeq_bool (Qlen (long_blocks time_diff) / Qlen time_diff) 0)
        eqn:Hratio; [|simpl; eauto].
      exfalso. apply Qeq_bool_iff in Hratio.
      assert (¬ (Qlen time_diff == 0)%Q) as Hn
        by (apply Qlen_positive; intros ->; simpl in *; lia).
      assert (Qlen (long_blocks time_diff) == 0)%Q as Hcount.
      { assert (Qlen (long_blocks time_diff)
                == Qlen (long_blocks time_diff) / Qlen time_diff * Qlen time_diff)%Q
          as Hsplit by (field; done).
        rewrite Hsplit, Hratio. ring. }
      unfold Qlen, Qeq, inject_Z in Hcount. simpl in Hcount.
      unfold long_block_deltas in Hlong. lia.
  - intros s. unfold statistics, mean. case_decide; [done|]. simpl.
    destruct (divide_by_stdev time_diff); [|done]. simpl.
    destruct (actual time_diff); [|done]. simpl.
    destruct (py_truediv _ _); [|done]. simpl. by intros [= <-].
Qed.

(** ** The empirical probability *)

Lemma Qlen_pos {A : Type} (l : list A) : l ≠ [] → (0 < Qlen l)%Q.
Proof.
  intros Hne. destruct l as [|x l]; [done|].
  unfold Qlen, Qlt, inject_Z. simpl. lia.
Qed.

Lemma Qlen_le {A B : Type} (l : list A) (k : list B) :
  length l ≤ length k → (Qlen l <= Qlen k)%Q.
Proof. intros Hle. unfold Qlen, Qle, inject_Z. simpl. lia. Qed.

Lemma filter_all_length {A : Type} (P : A → Prop) `{!∀ x, Decision (P x)}
    (l : list A) :
  length (filter P l) = length l ↔ Forall P l.
Proof.
  induction l as [|x l IH]; [by split; [constructor|]|].
  rewrite filter_cons. destruct (decide (P x)) as [Hx|Hx]; simpl.
  - rewrite Forall_cons. split.
    + intros [= Hlen]. split; [done | by apply IH].
    + intros [_ Hall]. f_equal. by apply IH.
  - split.
    + intros Hlen. pose proof (length_filter P l). lia.
    + by intros [? _]%Forall_cons.
Qed.

(** X15: when [actual] is defined it is a proportion: it lies between 0
    and 1, it is 1 exactly when every delta reaches 120, and the deltas it
    counts are those of the series that reach 120, in their order. *)
Theorem actual_is_a_proportion (time_diff : list Q) (a : Q) :
  actual time_diff = Ok a →
  (0 <= a)%Q ∧ (a <= 1)%Q
  ∧ ((a == 1)%Q ↔ Forall (λ time, (120 <= time)%Q) time_diff)
  ∧ long_blocks time_diff `sublist_of` time_diff.
Proof.
  unfold actual, py_truediv.
  destruct (Qeq_bool (Qlen time_diff) 0) eqn:Hzero; [done|]. intros [= <-].
  assert (time_diff ≠ []) as Hne by (intros ->; by vm_compute in Hzero).
  pose proof (Qlen_pos time_diff Hne) as Hpos.
  rewrite long_blocks_filter.
  pose proof (length_filter (λ time, (120 <= time)%Q) time_diff) as Hlen.
  split; [|split; [|split]].
  - apply Qle_shift_div_l; [done|]. rewrite Qmult_0_l.
    apply (Qlen_le (@nil Q)). simpl. lia.
  - apply Qle_shift_div_r; [done|]. rewrite Qmult_1_l. by apply Qlen_le.
  - split.
    + intros Hone. apply (filter_all_length (λ time, (120 <= time)%Q)).
      assert (Qlen (filter (λ time, (120 <= time)%Q) time_diff) == Qlen time_diff)%Q
        as Hsame.
      { assert (Qlen (filter (λ time, (120 <= time)%Q) time_diff)
                == Qlen (filter (λ time, (120 <= time)%Q) time_diff)
                   / Qlen time_diff * Qlen time_diff)%Q as Hsplit
          by (field; lra).
        rewrite Hsplit, Hone. ring. }
      unfold Qlen, Qeq, inject_Z in Hsame. cbn [Qnum Qden] in Hsame. lia.
    + intros Hall%(filter_all_length (λ time, (120 <= time)%Q)).
      unfold Qlen in *. rewrite Hall. field. lra.
  - apply sublist_filter.
Qed.

(** * The further properties on the sample data *)

Lemma steady_net_reliable : blocks_reliable steady_net.
Proof. intros n timestamp. split; [done | by eexists]. Defined.


(** Two days of a steady upstream. *)
Lemma fetcher_reliable_upstream_witness :
  blocks_reliable steady_net
  ∧ ∃ w' pages,
      fetcher steady_net (start_time + 2 * one_day) (fresh None) = (w', Ok tt)
      ∧ file w' = Some pages
      ∧ requests w' = 2
      ∧ length pages = 2.
Proof.
  split; [exact steady_net_reliable|].
  destruct (fetcher_reliable_upstream steady_net (start_time + 2 * one_day)
              (fresh None) steady_net_reliable)
    as (w' & pages & Hrun & Hfile & Hreq & _ & Hlen & _).
  exists w', pages. split; [done|]. split; [done|]. split; done.
Defined.

(** A raw record and its projection. *)
Lemma project_idempotent_witness :
  project (raw_block 2 1200) = Ok (sample_block 2 1200)
  ∧ sample_block 2 1200 ⊆ raw_block 2 1200
  ∧ project (sample_block 2 1200) = Ok (sample_block 2 1200).
Proof.
  assert (project (raw_block 2 1200) = Ok (sample_block 2 1200)) as Hproj
    by (vm_compute; reflexivity).
  split; [done|].
  destruct (project_idempotent (raw_block 2 1200)) as [_ Hagain].
  exact (Hagain (sample_block 2 1200) Hproj).
Defined.

(** The empty record has no hash. *)
Lemma project_key_error_witness :
  project (∅ : Block) = Raise (KeyError "hash")
  ∧ ∃ k, KeyError "hash" = KeyError k ∧ k ∈ core_fields ∧ (∅ : Block) !! k = None.
Proof.
  assert (project (∅ : Block) = Raise (KeyError "hash")) as Hraise by reflexivity.
  split; [done|].
  destruct (project_key_error ∅ (KeyError "hash") Hraise) as (k & Hk & Hcore & Hnone & _).
  by exists k.
Defined.

(** No file; a file without blocks; a block without index. *)
Lemma reconciler_fails_before_effects_witness :
  reconciler flaky_net elements (fresh None) = (fresh None, Raise FileNotFoundError)
  ∧ reconciler flaky_net elements (fresh (Some [[]]))
    = (fresh (Some [[]]), Raise ValueError)
  ∧ reconciler flaky_net elements (fresh (Some [[sample_block 0 0; unindexed_block]]))
    = (fresh (Some [[sample_block 0 0; unindexed_block]]),
       Raise (KeyError "block_index")).
Proof.
  destruct (reconciler_fails_before_effects flaky_net elements (fresh None))
    as (Hnone & _ & _).
  destruct (reconciler_fails_before_effects flaky_net elements (fresh (Some [[]])))
    as (_ & Hempty & _).
  destruct (reconciler_fails_before_effects flaky_net elements
              (fresh (Some [[sample_block 0 0; unindexed_block]])))
    as (_ & _ & Hkey).
  split; [by apply Hnone|]. split; [by apply (Hempty [[]])|].
  apply (Hkey [[sample_block 0 0; unindexed_block]]); [done| |].
  - apply Forall_cons. split; [right; by exists 0%Z|].
    apply Forall_cons. split; [by left | constructor].
  - apply Exists_cons. right. apply Exists_cons. by left.
Defined.

(** The sample store: four observed indexes, two missing, largest 5. *)
Lemma missing_blocks_counts_witness :
  missing_blocks (concat sample_pages) = Ok {[2%Z; 4%Z]}
  ∧ ∃ observed max_index,
      block_indexes (concat sample_pages) = Ok observed
      ∧ py_max observed = Ok max_index
      ∧ ({[2%Z; 4%Z]} : gset Z) ## observed.
Proof.
  assert (missing_blocks (concat sample_pages) = Ok {[2%Z; 4%Z]}) as Hmissing
    by (vm_compute; reflexivity).
  split; [done|].
  destruct (missing_blocks_counts (concat sample_pages) {[2%Z; 4%Z]} Hmissing)
    as (observed & max_index & Hobs & Hmax & Hdisj & _).
  by exists observed, max_index.
Defined.

(** Two missing indexes: at most ten requests. *)
Lemma reconciler_request_bound_witness :
  (∀ s : gset Z, elements s ≡ₚ elements s)
  ∧ missing_blocks (concat sample_pages) = Ok {[2%Z; 4%Z]}
  ∧ ∃ w' r,
      reconciler flaky_net elements (fresh (Some sample_pages)) = (w', r)
      ∧ requests w' ≤ 10.
Proof.
  assert (missing_blocks (concat sample_pages) = Ok {[2%Z; 4%Z]}) as Hmissing
    by (vm_compute; reflexivity).
  split; [exact elements_is_an_order|]. split; [done|].
  destruct (reconciler_request_bound flaky_net elements elements_is_an_order
              (fresh (Some sample_pages)) sample_pages {[2%Z; 4%Z]} eq_refl Hmissing)
    as (w' & r & Hrun & [_ Hreq] & _).
  exists w', r. split; [done|].
  replace (size ({[2%Z; 4%Z]} : gset Z)) with 2 in Hreq by (vm_compute; reflexivity).
  simpl in Hreq. lia.
Defined.


(** Two blocks in two pages. *)
Lemma aggregator_reads_only_witness :
  (aggregator (fresh (Some [[sample_block 0 0]; [sample_block 1 600]]))).2
  = Raise StatisticsError
  ∧ (aggregator (fresh (Some [[sample_block 0 0]; [sample_block 1 600]]))).2
    = (aggregator (fresh (Some [[sample_block 0 0; sample_block 1 600]]))).2.
Proof.
  destruct (aggregator_reads_only
              (fresh (Some [[sample_block 0 0]; [sample_block 1 600]])))
    as (_ & _ & Hpages & Hshort).
  split.
  - apply Hshort; [by eexists | | simpl; lia].
    repeat constructor; eexists; reflexivity.
  - apply Hpages; [by eexists | by eexists | reflexivity].
Defined.

(** One block lacks its index; one block lacks its timestamp. *)
Lemma time_diff_key_errors_witness :
  time_diff [sample_block 0 0; unindexed_block] = Raise (KeyError "block_index")
  ∧ time_diff [untimed_block; sample_block 0 0] = Raise (KeyError "time").
Proof.
  destruct (time_diff_key_errors [sample_block 0 0; unindexed_block]) as [Hindex _].
  destruct (time_diff_key_errors [untimed_block; sample_block 0 0]) as [_ Htime].
  split.
  - apply Hindex.
    + apply Forall_cons. split; [right; by exists 0%Z|].
      apply Forall_cons. split; [by left | constructor].
    + apply Exists_cons. right. apply Exists_cons. by left.
  - apply Htime.
    + repeat constructor; eexists; reflexivity.
    + apply Exists_cons. by left.
Defined.

(** Two records stored in either order. *)
Lemma time_diff_order_irrelevant_witness :
  [sample_block 1 600; sample_block 0 0] ≡ₚ [sample_block 0 0; sample_block 1 600]
  ∧ time_diff [sample_block 1 600; sample_block 0 0]
    = time_diff [sample_block 0 0; sample_block 1 600].
Proof.
  assert ([sample_block 1 600; sample_block 0 0]
          ≡ₚ [sample_block 0 0; sample_block 1 600]) as Hperm
    by apply Permutation_swap.
  split; [done|].
  apply (time_diff_order_irrelevant _ _ Hperm).
  - repeat constructor; eexists; reflexivity.
  - intros b1 b2 i Hb1 Hb2.
    apply elem_of_cons in Hb1 as [-> | Hb1%list_elem_of_singleton];
      apply elem_of_cons in Hb2 as [-> | Hb2%list_elem_of_singleton];
      subst; try done; intros Hi1 Hi2; vm_compute in Hi1, Hi2; congruence.
Defined.

(** The sample store spans 3000 seconds. *)
Lemma time_diff_telescopes_witness :
  Forall (λ blk, (∃ i, has_index blk i) ∧ (∃ t, has_time blk t)) (concat sample_pages)
  ∧ ∃ series,
      time_diff (concat sample_pages) = Ok series
      ∧ (Qsum series == inject_Z (3000 - 0) / 60)%Q.
Proof.
  assert (Forall (λ blk, (∃ i, has_index blk i) ∧ (∃ t, has_time blk t))
            (concat sample_pages)) as Hall.
  { repeat constructor; eexists; reflexivity. }
  split; [done|].
  destruct (time_diff_telescopes (concat sample_pages) Hall)
    as (sorted & series & Hsorted & Hseries & Hsum).
  exists series. split; [done|].
  vm_compute in Hsorted. injection Hsorted as <-.
  by destruct (Hsum (sample_block 0 0) (sample_block 5 3000) 0%Z 3000%Z
                 eq_refl eq_refl eq_refl eq_refl) as [Htotal _].
Defined.

(** A series on which the statistics cell returns. *)
Lemma statistics_succeeds_iff_witness :
  ∃ s, statistics [60; 60; 180; 60]%Q = Ok s.
Proof.
  destruct (statistics_succeeds_iff [60; 60; 180; 60]%Q) as [[_ Hreturns] _].
  apply Hreturns. split; [simpl; lia|]. split; [|vm_compute; lia].
  intros [d Hd].
  apply Forall_cons in Hd as [H60 Hd]. apply Forall_cons in Hd as [_ Hd].
  apply Forall_cons in Hd as [H180 _].
  rewrite <- H180 in H60. by vm_compute in H60.
Defined.

(** One delta in four. *)
Lemma actual_is_a_proportion_witness :
  actual [60; 60; 180; 60]%Q = Ok (1 # 4)%Q
  ∧ (0 <= 1 # 4)%Q ∧ (1 # 4 <= 1)%Q.
Proof.
  assert (actual [60; 60; 180; 60]%Q = Ok (1 # 4)%Q) as Hactual
    by (vm_compute; reflexivity).
  split; [done|].
  destruct (actual_is_a_proportion [60; 60; 180; 60]%Q (1 # 4)%Q Hactual)
    as (Hlow & Hhigh & _).
  by split.
Defined.
